(** * fetch_and_publish.py: novelty detection over syndication feeds

    A shallow embedding of [fetch_and_publish.py] and the properties of its
    entry normaliser, seen-state store, novelty classifier, output builder,
    feed processor and run driver.

    Layout:
    - [Py]: the few Python idioms the script leans on (truthiness, [or],
      exceptions);
    - [Datetime]: the part of Python's [datetime] the script calls;
    - [Xml]: the part of [xml.etree.ElementTree] the script calls;
    - [Json], [PyDict]: the values [json.load] yields and the operations the
      script applies to them ([dict(...)], [in], indexing, item assignment);
    - [Env]: files, network and clock;
    - [Feed]: the script itself, function by function, in source order;
    - the properties. *)

From Stdlib Require Import ZArith Bool Lia Ascii String DecimalString.
From stdpp Require Import base option list strings gmap fin_maps.

Local Open Scope Z_scope.

(* ===================================================================== *)
(** ** Python idioms *)
(* ===================================================================== *)

Module Py.

(** [bool(s)] for a string: the empty string is falsy. *)
Definition truthy (s : string) : bool :=
  match s with
  | EmptyString => false
  | String _ _ => true
  end.

(** [bool(v)] for the result of [entry.get(key)] on a string field:
    [None] and the empty string are falsy. *)
Definition truthy_opt (v : option string) : bool :=
  match v with
  | Some s => truthy s
  | None => false
  end.

(** [a or b] on strings. *)
Definition or_str (a b : string) : string :=
  if truthy a then a else b.

(** [a or b] where [a] is the result of [entry.get(key)]. *)
Definition or_opt (a : option string) (b : option string) : option string :=
  if truthy_opt a then a else b.

(** [entry.get(key, '')]. *)
Definition get_default (v : option string) : string :=
  match v with
  | Some s => s
  | None => EmptyString
  end.

(** The first candidate on which [f] succeeds, in list order: the shape of
    [for key in (...): ... try: return ... except Exception: pass]. *)
Fixpoint first_success {A B : Type} (f : A → option B) (l : list A)
  : option B :=
  match l with
  | [] => None
  | x :: l' =>
      match f x with
      | Some y => Some y
      | None => first_success f l'
      end
  end.

(** The exceptions that can leave [process_feed]. *)
Inductive exception : Type := TypeError | ValueError.

(** The outcome of a call that can raise. *)
Inductive result (A : Type) : Type :=
| Ok (a : A)
| Raise (e : exception).

Arguments Ok {A} a.
Arguments Raise {A} e.

End Py.

(* ===================================================================== *)
(** ** Python's datetime, as far as the script uses it *)
(* ===================================================================== *)

Module Datetime.

(** A [datetime] is kept as the count of microseconds of its own civil
    (wall-clock) time since 0001-01-01T00:00:00, with its UTC offset in
    seconds when it is aware ([tzinfo] set) and [None] when it is naive.
    Python stores the civil fields; [of_civil] and [to_civil] below are
    [datetime.py]'s own conversions between the two. *)
Record datetime : Type := mk_datetime {
  ticks : Z;
  utcoffset : option Z
}.

Definition US_PER_SECOND : Z := 1000000.
Definition US_PER_DAY : Z := 86400 * US_PER_SECOND.

(** [timedelta(hours=h)] in microseconds. *)
Definition timedelta_hours (h : Z) : Z := h * 3600 * US_PER_SECOND.

(** *** The proleptic Gregorian calendar of [datetime.py] *)

Definition is_leap (year : Z) : bool :=
  (year mod 4 =? 0) && (negb (year mod 100 =? 0) || (year mod 400 =? 0)).

Definition days_before_year (year : Z) : Z :=
  let y := year - 1 in
  y * 365 + y / 4 - y / 100 + y / 400.

Definition days_in_month (year month : Z) : Z :=
  if month =? 2 then (if is_leap year then 29 else 28)
  else if (month =? 4) || (month =? 6) || (month =? 9) || (month =? 11)
       then 30 else 31.

(** [_DAYS_BEFORE_MONTH[month]]. *)
Definition days_before_month_table (month : Z) : Z :=
  match month with
  | 1 => 0 | 2 => 31 | 3 => 59 | 4 => 90 | 5 => 120 | 6 => 151
  | 7 => 181 | 8 => 212 | 9 => 243 | 10 => 273 | 11 => 304 | 12 => 334
  | _ => 365
  end.

Definition days_before_month (year month : Z) : Z :=
  days_before_month_table month
  + (if (2 <? month) && is_leap year then 1 else 0).

(** [_ymd2ord]: 0001-01-01 is day 1. *)
Definition ymd2ord (year month day : Z) : Z :=
  days_before_year year + days_before_month year month + day.

Definition DI400Y : Z := 146097.
Definition DI100Y : Z := 36524.
Definition DI4Y : Z := 1461.
Definition MAXORDINAL : Z := 3652059.

(** [_ord2ymd]. *)
Definition ord2ymd (ordinal : Z) : Z * Z * Z :=
  let n := ordinal - 1 in
  let n400 := n / DI400Y in
  let n := n mod DI400Y in
  let year := n400 * 400 + 1 in
  let n100 := n / DI100Y in
  let n := n mod DI100Y in
  let n4 := n / DI4Y in
  let n := n mod DI4Y in
  let n1 := n / 365 in
  let n := n mod 365 in
  let year := year + n100 * 100 + n4 * 4 + n1 in
  if (n1 =? 4) || (n100 =? 4) then (year - 1, 12, 31)
  else
    let leapyear := (n1 =? 3) && (negb (n4 =? 24) || (n100 =? 3)) in
    let month := Z.shiftr (n + 50) 5 in
    let preceding :=
      days_before_month_table month
      + (if (2 <? month) && leapyear then 1 else 0) in
    if n <? preceding then
      let month := month - 1 in
      let preceding :=
        preceding
        - ((if month =? 2 then 28
            else if (month =? 4) || (month =? 6) || (month =? 9)
                    || (month =? 11) then 30 else 31)
           + (if (month =? 2) && leapyear then 1 else 0)) in
      (year, month, n - preceding + 1)
    else (year, month, n - preceding + 1).

(** The last step of [_ord2ymd] on its own: month and day from the zero-based
    day of the year. *)
Definition month_day (n : Z) (leapyear : bool) : Z * Z :=
  let month := Z.shiftr (n + 50) 5 in
  let preceding :=
    days_before_month_table month
    + (if (2 <? month) && leapyear then 1 else 0) in
  if n <? preceding then
    let month := month - 1 in
    let preceding :=
      preceding
      - ((if month =? 2 then 28
          else if (month =? 4) || (month =? 6) || (month =? 9)
                  || (month =? 11) then 30 else 31)
         + (if (month =? 2) && leapyear then 1 else 0)) in
    (month, n - preceding + 1)
  else (month, n - preceding + 1).

(** The civil fields of a datetime. *)
Record civil : Type := mk_civil {
  year : Z; month : Z; day : Z;
  hour : Z; minute : Z; second : Z; microsecond : Z
}.

(** What the [datetime(...)] constructor accepts; anything else raises
    [ValueError]. *)
Definition civil_valid (c : civil) : bool :=
  (1 <=? year c) && (year c <=? 9999)
  && (1 <=? month c) && (month c <=? 12)
  && (1 <=? day c) && (day c <=? days_in_month (year c) (month c))
  && (0 <=? hour c) && (hour c <=? 23)
  && (0 <=? minute c) && (minute c <=? 59)
  && (0 <=? second c) && (second c <=? 59)
  && (0 <=? microsecond c) && (microsecond c <=? 999999).

Definition civil_ticks (c : civil) : Z :=
  (((ymd2ord (year c) (month c) (day c) - 1) * 86400
    + hour c * 3600 + minute c * 60 + second c) * US_PER_SECOND)
  + microsecond c.

(** [datetime(year, month, day, hour, minute, second, microsecond,
    tzinfo=...)]: [None] stands for the [ValueError] of a field out of
    range. *)
Definition of_civil (c : civil) (tz : option Z) : option datetime :=
  if civil_valid c
  then Some {| ticks := civil_ticks c; utcoffset := tz |}
  else None.

Definition to_civil (d : datetime) : civil :=
  let days := ticks d / US_PER_DAY in
  let rest := ticks d mod US_PER_DAY in
  let '(y, m, dd) := ord2ymd (days + 1) in
  let secs := rest / US_PER_SECOND in
  {| year := y; month := m; day := dd;
     hour := secs / 3600; minute := (secs mod 3600) / 60;
     second := secs mod 60; microsecond := rest mod US_PER_SECOND |}.

(** [datetime.min] and [datetime.max] as tick counts. *)
Definition MIN_TICKS : Z := 0.
Definition MAX_TICKS : Z := MAXORDINAL * US_PER_DAY - 1.

Definition in_range (t : Z) : bool := (MIN_TICKS <=? t) && (t <=? MAX_TICKS).

Definition UTC : option Z := Some 0.

(** The point on the UTC time line an aware datetime denotes (a naive one
    is read as UTC; the script never compares a naive datetime). *)
Definition instant (d : datetime) : Z :=
  ticks d - default 0 (utcoffset d) * US_PER_SECOND.

(** [a >= b], [a > b] and [a == b] on aware datetimes: by instant. *)
Definition ge (a b : datetime) : bool := instant b <=? instant a.
Definition gt (a b : datetime) : bool := instant b <? instant a.

(** [bool(dt)]: a datetime is always truthy, so [if edate:] and
    [edate or now] only ask whether [edate] is [None]. *)
Definition truthy (d : datetime) : bool := true.

(** [dt.tzinfo is None]. *)
Definition is_naive (d : datetime) : bool :=
  match utcoffset d with
  | None => true
  | Some _ => false
  end.

(** [dt.replace(tzinfo=timezone.utc)]: same civil fields, now aware. *)
Definition replace_tzinfo_utc (d : datetime) : datetime :=
  {| ticks := ticks d; utcoffset := UTC |}.

(** [dt.astimezone(timezone.utc)] on an aware datetime: the same instant
    with offset zero; [None] stands for the [OverflowError] of a result
    outside [datetime.min .. datetime.max]. The script only calls it on
    aware values; on a naive one Python would consult the system's local
    zone, which the model does not have, and the model refuses. *)
Definition astimezone_utc (d : datetime) : option datetime :=
  match utcoffset d with
  | Some off =>
      let t := ticks d - off * US_PER_SECOND in
      if in_range t then Some {| ticks := t; utcoffset := UTC |} else None
  | None => None
  end.

(** [dt - delta] for a timedelta given in microseconds. The script applies
    it to the wall clock only, far from [datetime.min], so no
    [OverflowError] arises. *)
Definition sub (d : datetime) (delta : Z) : datetime :=
  {| ticks := ticks d - delta; utcoffset := utcoffset d |}.

(** *** Formatting *)

Definition digit (n : Z) : ascii := ascii_of_nat (48 + Z.to_nat (n mod 10)).

(** ["%0<width>d" % n] for [0 <= n < 10^width]. *)
Fixpoint zero_padded (width : nat) (n : Z) : string :=
  match width with
  | O => EmptyString
  | S w => zero_padded w (n / 10) +:+ String (digit n) EmptyString
  end.

(** The [+HH:MM] suffix of [isoformat] ([+HH:MM:SS] when the offset has
    seconds); empty for a naive datetime. *)
Definition format_offset (tz : option Z) : string :=
  match tz with
  | None => EmptyString
  | Some off =>
      let sign := if off <? 0 then "-"%string else "+"%string in
      let a := Z.abs off in
      sign +:+ zero_padded 2 (a / 3600) +:+ ":"
           +:+ zero_padded 2 ((a mod 3600) / 60)
           +:+ (if a mod 60 =? 0 then EmptyString
                else ":" +:+ zero_padded 2 (a mod 60))
  end.

Definition format_with (sep : string) (d : datetime) : string :=
  let c := to_civil d in
  zero_padded 4 (year c) +:+ "-" +:+ zero_padded 2 (month c) +:+ "-"
    +:+ zero_padded 2 (day c) +:+ sep
    +:+ zero_padded 2 (hour c) +:+ ":" +:+ zero_padded 2 (minute c) +:+ ":"
    +:+ zero_padded 2 (second c)
    +:+ (if microsecond c =? 0 then EmptyString
         else "." +:+ zero_padded 6 (microsecond c))
    +:+ format_offset (utcoffset d).

(** [dt.isoformat()]. *)
Definition isoformat (d : datetime) : string := format_with "T" d.

(** [str(dt)], which is [dt.isoformat(sep=' ')]. *)
Definition str (d : datetime) : string := format_with " " d.

End Datetime.


(* ===================================================================== *)
(** ** ElementTree, as far as the script uses it *)
(* ===================================================================== *)

Module Xml.

(** An [ET.Element]: tag, attributes, text and children in document order. *)
#[warnings="-register-all"]
Inductive element : Type :=
| Element (tag : string) (attrib : list (string * string))
          (text : option string) (children : list element).

Definition tag (e : element) : string :=
  match e with Element t _ _ _ => t end.

Definition text (e : element) : option string :=
  match e with Element _ _ t _ => t end.

Definition children (e : element) : list element :=
  match e with Element _ _ _ c => c end.

(** The child [ET.SubElement(parent, tag)] appends once its [.text] is set. *)
Definition leaf (t : string) (txt : string) : element :=
  Element t [] (Some txt) [].

(** [e.findall(tag)]: the direct children carrying that tag, in order. *)
Definition findall (t : string) (e : element) : list element :=
  filter (λ c, tag c = t) (children e).

(** [e.find(tag)]: the first such child. *)
Definition find (t : string) (e : element) : option element :=
  head (findall t e).

(** [e.findtext(tag)]. *)
Definition findtext (t : string) (e : element) : option string :=
  find t e ≫= text.

End Xml.

(* ===================================================================== *)
(** ** JSON values and Python dictionaries *)
(* ===================================================================== *)

Module Json.

(** A JSON text by its structure, and with it the value [json.load] reads
    from it: [None], a [bool], an [int], a [str], a [list] or a [dict]. An
    object is kept as the list of its members as they are written, so a name
    can occur twice in it; the items of the dict read from it are [object_of]
    below, and every operation on an object goes through that. Numbers are
    integers: JSON's fractional and exponent forms, which Python reads as
    floats, are left out. *)
#[warnings="-register-all"]
Inductive json : Type :=
| JNull
| JBool (b : bool)
| JNumber (n : Z)
| JString (s : string)
| JArray (items : list json)
| JObject (members : list (string * json)).

(** [d[n] = v] on the items of a dict with string keys: the value of an
    existing key is replaced where it stands, a new key goes last. *)
Fixpoint set_member (n : string) (v : json) (ms : list (string * json))
  : list (string * json) :=
  match ms with
  | [] => [(n, v)]
  | (n', v') :: ms' =>
      if bool_decide (n' = n) then (n', v) :: ms'
      else (n', v') :: set_member n v ms'
  end.

(** The items of the dict the decoder builds from the members of an object:
    of two members with one name, the first gives the place and the last the
    value. *)
Definition object_of (members : list (string * json))
  : list (string * json) :=
  fold_left (λ ms kv, set_member kv.1 kv.2 ms) members [].

(** [v == s] for a string [s]. *)
Definition is_str (s : string) (v : json) : bool :=
  match v with
  | JString t => bool_decide (t = s)
  | _ => false
  end.

(** [s in t] on strings: [s] occurs in [t]. *)
Fixpoint is_substring (s t : string) : bool :=
  String.prefix s t
  || match t with
     | EmptyString => false
     | String _ t' => is_substring s t'
     end.

(** [s in x]. On [None], a number or a boolean Python raises [TypeError];
    [process_feed] reaches its [in] only after [dict(x)] has succeeded, which
    it does on none of these, and the answer given for them here is never
    used. *)
Definition contains (x : json) (s : string) : bool :=
  match x with
  | JObject ms => bool_decide (s ∈ ms.*1)
  | JArray l => existsb (is_str s) l
  | JString t => is_substring s t
  | JNull | JBool _ | JNumber _ => false
  end.

(** [x[s]] for a string [s]: the value under that key of a dict; [None]
    stands for the exception raised otherwise ([KeyError] on a dict without
    the key, [TypeError] on a list, a string and the rest). *)
Definition getitem (x : json) (s : string) : option json :=
  match x with
  | JObject ms =>
      snd <$> List.find (λ kv, bool_decide (kv.1 = s)) (object_of ms)
  | _ => None
  end.

(** The keys of a loaded dict; nothing for a value that is not a dict. *)
Definition names (x : json) : gset string :=
  match x with
  | JObject ms => list_to_set ms.*1
  | _ => ∅
  end.

End Json.

Module PyDict.
Import Json.

(** The hashable values that can become keys of [dict(last_seen)]. *)
Inductive key : Type :=
| KNone
| KBool (b : bool)
| KInt (n : Z)
| KStr (s : string).

#[global] Instance key_eq_dec : EqDecision key.
Proof. solve_decision. Defined.

(** The number a key compares as, when it is one: [True == 1]. *)
Definition as_number (k : key) : option Z :=
  match k with
  | KBool b => Some (if b then 1 else 0)
  | KInt n => Some n
  | KNone | KStr _ => None
  end.

(** [a == b] on keys. *)
Definition key_eqb (a b : key) : bool :=
  match a, b with
  | KStr s, KStr t => bool_decide (s = t)
  | KNone, KNone => true
  | _, _ =>
      match as_number a, as_number b with
      | Some m, Some n => bool_decide (m = n)
      | _, _ => false
      end
  end.

(** A Python [dict]: its items in insertion order. *)
Definition dict : Type := list (key * json).

(** [d[k] = v]: an equal key keeps its place (and the key object first
    inserted) and takes the new value; a new key goes last. *)
Fixpoint setitem (k : key) (v : json) (d : dict) : dict :=
  match d with
  | [] => [(k, v)]
  | (k', v') :: d' =>
      if key_eqb k' k then (k', v) :: d'
      else (k', v') :: setitem k v d'
  end.

(** [d.get(k)]. *)
Definition get (d : dict) (k : key) : option json :=
  snd <$> List.find (λ kv, key_eqb kv.1 k) d.

(** [hash(v)] succeeds: [None] stands for the [TypeError] on a list or a
    dict. *)
Definition hashable (v : json) : option key :=
  match v with
  | JNull => Some KNone
  | JBool b => Some (KBool b)
  | JNumber n => Some (KInt n)
  | JString s => Some (KStr s)
  | JArray _ | JObject _ => None
  end.

(** One element of the sequence handed to [dict(...)], read as a key and a
    value: it must be iterable ([TypeError] otherwise) and of length two
    ([ValueError] otherwise), and its first element hashable ([TypeError]
    otherwise). A string of two characters gives its characters; a dict of
    two items gives its two keys. *)
Definition pair_of (item : json) : Py.result (key * json) :=
  match item with
  | JNull | JBool _ | JNumber _ => Py.Raise Py.TypeError
  | JString s =>
      match s with
      | String a (String b EmptyString) =>
          Py.Ok (KStr (String a EmptyString), JString (String b EmptyString))
      | _ => Py.Raise Py.ValueError
      end
  | JArray l =>
      match l with
      | [k; v] =>
          match hashable k with
          | Some k => Py.Ok (k, v)
          | None => Py.Raise Py.TypeError
          end
      | _ => Py.Raise Py.ValueError
      end
  | JObject ms =>
      match object_of ms with
      | [(n1, _); (n2, _)] => Py.Ok (KStr n1, JString n2)
      | _ => Py.Raise Py.ValueError
      end
  end.

(** [d.update(items)] for a sequence of pairs, as [dict(...)] runs it: item
    by item, stopping at the first that raises. *)
Fixpoint update_from_seq (items : list json) (d : dict) : Py.result dict :=
  match items with
  | [] => Py.Ok d
  | item :: items' =>
      match pair_of item with
      | Py.Ok (k, v) => update_from_seq items' (setitem k v d)
      | Py.Raise e => Py.Raise e
      end
  end.

(** The characters of a string, which is what iterating it yields. *)
Definition chars (s : string) : list json :=
  map (λ c, JString (String c EmptyString)) (list_ascii_of_string s).

(** [dict(x)]: a copy of a dict; the dict built from a sequence of pairs for
    a list or a string; [TypeError] for what cannot be iterated. *)
Definition of_json (x : json) : Py.result dict :=
  match x with
  | JObject ms => Py.Ok (map (λ kv, (KStr kv.1, kv.2)) (object_of ms))
  | JArray l => update_from_seq l []
  | JString s => update_from_seq (chars s) []
  | JNull | JBool _ | JNumber _ => Py.Raise Py.TypeError
  end.

(** The name [json.dump] writes for a key. *)
Definition name (k : key) : string :=
  match k with
  | KStr s => s
  | KInt n => NilZero.string_of_int (Z.to_int n)
  | KBool true => "true"
  | KBool false => "false"
  | KNone => "null"
  end.

(** The items whose key is not a string, in order. *)
Definition others (d : dict) : dict :=
  List.filter (λ kv, match kv.1 with KStr _ => false | _ => true end) d.

(** No two items of the dict have equal keys. *)
Fixpoint distinct (d : dict) : Prop :=
  match d with
  | [] => True
  | kv :: d' => get d' kv.1 = None ∧ distinct d'
  end.

End PyDict.

(* ===================================================================== *)
(** ** The world the script runs in *)
(* ===================================================================== *)

Module Env.

(** What a file holds. The bytes themselves ([ET.tostring], the spelling of
    JSON) are kept abstract: a file written by [ET.tostring] holds that
    element tree; a file of valid JSON holds that JSON text, of whatever
    type; any other file holds text that [json.load] rejects. *)
Inductive file_content : Type :=
| XmlDocument (root : Xml.element)
| JsonText (value : Json.json)
| OtherText (raw : string).

Record file : Type := mk_file {
  readable : bool;
  content : file_content
}.

(** The environment of one process: the working directory, what [urlopen]
    answers for a URL ([None]: it raises), the successive readings of the
    system clock (ticks of UTC civil time) with the count of readings taken
    so far, and the UTC offset of the system's local zone. Files can always be
    opened for writing: the working directory is the job's own checkout. *)
Record world : Type := mk_world {
  files : gmap string file;
  urlopen : string → option string;
  clock : nat → Z;
  clock_reads : nat;
  local_utcoffset : Z
}.

Definition set_files (fs : gmap string file) (w : world) : world :=
  {| files := fs; urlopen := urlopen w; clock := clock w;
     clock_reads := clock_reads w; local_utcoffset := local_utcoffset w |}.

(** [datetime.now(timezone.utc)]: one reading of the clock. *)
Definition datetime_now_utc (w : world) : Datetime.datetime * world :=
  ({| Datetime.ticks := clock w (clock_reads w);
      Datetime.utcoffset := Datetime.UTC |},
   {| files := files w; urlopen := urlopen w; clock := clock w;
      clock_reads := S (clock_reads w);
      local_utcoffset := local_utcoffset w |}).

(** [dt.astimezone()] on a UTC datetime: the same instant in the system's
    local zone. *)
Definition astimezone_local (w : world) (d : Datetime.datetime)
  : Datetime.datetime :=
  {| Datetime.ticks :=
       Datetime.instant d + local_utcoffset w * Datetime.US_PER_SECOND;
     Datetime.utcoffset := Some (local_utcoffset w) |}.

(** [os.path.exists(path)]. *)
Definition exists_ (path : string) (w : world) : bool :=
  bool_decide (is_Some (files w !! path)).

(** [open(path, 'r')] followed by reading: [None] stands for the [OSError]
    of a missing or unreadable file. *)
Definition open_read (path : string) (w : world) : option file_content :=
  match files w !! path with
  | Some f => if readable f then Some (content f) else None
  | None => None
  end.

(** [open(path, 'w')] followed by writing [c]: creates the file or replaces
    its content; the permissions of an existing file stay as they are. *)
Definition open_write (path : string) (c : file_content) (w : world) : world :=
  let r := match files w !! path with
           | Some f => readable f
           | None => true
           end in
  set_files (<[path := {| readable := r; content := c |}]> (files w)) w.

(** [json.load(fh)]: the value of the text, whatever its type; [None] stands
    for the exception raised on text that is not valid JSON. *)
Definition json_load (c : file_content) : option Json.json :=
  match c with
  | JsonText v => Some v
  | XmlDocument _ => None
  | OtherText _ => None
  end.

(** [json.dump(data, fh, ...)] for a dict: the text written, one member per
    item in order, each key spelled as a name. *)
Definition json_dump (data : PyDict.dict) : file_content :=
  JsonText (Json.JObject (map (λ kv, (PyDict.name kv.1, kv.2)) data)).

End Env.

(* ===================================================================== *)
(** ** fetch_and_publish.py *)
(* ===================================================================== *)

Module Feed.
Import Datetime.

(** *** CONFIG *)

(** The keys of the [FEEDS], [OUTFILES] and [LAST_SEEN_FILES] tables. *)
Inductive feed_key : Type := bd | master.

#[global] Instance feed_key_eq_dec : EqDecision feed_key.
Proof. solve_decision. Defined.

Definition key_name (k : feed_key) : string :=
  match k with
  | bd => "bd"
  | master => "master"
  end.

(** [FEEDS], in the order [FEEDS.items()] yields it. *)
Definition FEEDS : list (feed_key * string) :=
  [ (bd, "https://evilgodfahim.github.io/bd/articles.xml"%string);
    (master, "https://evilgodfahim.github.io/Longreads/filtered.xml"%string) ].

Definition OUTFILES (k : feed_key) : string :=
  match k with
  | bd => "daily_bd.xml"
  | master => "daily_master.xml"
  end.

Definition LAST_SEEN_FILES (k : feed_key) : string :=
  match k with
  | bd => "last_seen_bd.json"
  | master => "last_seen_master.json"
  end.

(** [DELTA = timedelta(hours=24)]. *)
Definition DELTA : Z := timedelta_hours 24.

(** *** Feed entries as feedparser hands them over *)

(** A [time.struct_time]. *)
Record struct_time : Type := mk_struct_time {
  tm_year : Z; tm_mon : Z; tm_mday : Z;
  tm_hour : Z; tm_min : Z; tm_sec : Z;
  tm_wday : Z; tm_yday : Z; tm_isdst : Z
}.

(** One entry of [parsed.entries], field by field as the script reads it:
    each field is what [entry.get(key)] answers (feedparser's own aliasing of
    keys happens behind that call), [None] when it finds nothing. *)
Record RawEntry : Type := mk_entry {
  id : option string;
  guid : option string;
  link : option string;
  title : option string;
  published : option string;
  updated : option string;
  pubDate : option string;
  date : option string;
  summary : option string;
  description : option string;
  published_parsed : option struct_time;
  updated_parsed : option struct_time
}.

(** An element of [new_items]. *)
Record item : Type := mk_item {
  item_id : string;
  item_title : option string;
  item_link : option string;
  item_summary : string;
  item_published : datetime
}.

(** *** Helper functions *)

(** [safe_fetch]: the bytes, or [None] when [urlopen] raised. *)
Definition safe_fetch (url : string) (w : Env.world) : option string :=
  match Env.urlopen w url with
  | Some r => Some r
  | None => None
  end.

(** ['key' in entry and entry.key], as a value: the field when it is there
    and truthy. *)
Definition present (v : option string) : option string :=
  match v with
  | Some s => if Py.truthy s then Some s else None
  | None => None
  end.

Definition parse_entry_id (entry : RawEntry) : string :=
  match present (id entry) with
  | Some s => s
  | None =>
      match present (guid entry) with
      | Some s => s
      | None =>
          match present (link entry) with
          | Some s => s
          | None =>
              let title := Py.get_default (title entry) in
              let pub := Py.or_str (Py.get_default (published entry))
                                   (Py.get_default (updated entry)) in
              title +:+ "||" +:+ pub
          end
      end
  end.

(** The [datetime] built from the first six fields of [v], with
    [tzinfo=timezone.utc]. *)
Definition datetime_of_struct (v : struct_time) : option datetime :=
  of_civil (mk_civil (tm_year v) (tm_mon v) (tm_mday v)
                     (tm_hour v) (tm_min v) (tm_sec v) 0) UTC.

Section Script.

(** [dateutil.parser.parse]: [None] stands for the exception it raises on a
    string it cannot read. *)
Variable dateparser_parse : string → option datetime.

(** [feedparser.parse(raw).entries or []]. *)
Variable feedparser_parse : string → list RawEntry.

(** The body of the first loop of [parse_entry_date] for one key. *)
Definition try_structured (v : option struct_time) : option datetime :=
  match v with
  | Some t => datetime_of_struct t
  | None => None
  end.

(** The body of the second loop of [parse_entry_date] for one key. *)
Definition try_string (v : option string) : option datetime :=
  match v with
  | Some s =>
      if Py.truthy s then
        match dateparser_parse s with
        | Some dt =>
            let dt := if is_naive dt then replace_tzinfo_utc dt else dt in
            astimezone_utc dt
        | None => None
        end
      else None
  | None => None
  end.

Definition parse_entry_date (entry : RawEntry) : option datetime :=
  match Py.first_success try_structured
          [published_parsed entry; updated_parsed entry] with
  | Some dt => Some dt
  | None =>
      Py.first_success try_string
        [published entry; updated entry; pubDate entry; date entry]
  end.

(** What [load_last_seen] returns is whatever [json.load] yields; [{}] when
    the file is missing, cannot be read, or is not valid JSON. *)
Definition load_last_seen (path : string) (w : Env.world) : Json.json :=
  if negb (Env.exists_ path w) then Json.JObject []
  else
    match Env.open_read path w ≫= Env.json_load with
    | Some data => data
    | None => Json.JObject []
    end.

Definition save_last_seen (path : string) (data : PyDict.dict)
                          (w : Env.world) : Env.world :=
  Env.open_write path (Env.json_dump data) w.

(** The [item] element [build_rss_xml] makes of one of [items]. *)
Definition item_element (it : item) : Xml.element :=
  Xml.Element "item" [] None
    ((if Py.truthy_opt (item_title it)
      then [Xml.leaf "title" (Py.get_default (item_title it))] else [])
     ++ (if Py.truthy_opt (item_link it)
         then [Xml.leaf "link" (Py.get_default (item_link it))] else [])
     ++ (if Py.truthy (item_id it)
         then [Xml.leaf "guid" (item_id it)] else [])
     ++ (if truthy (item_published it)
         then [Xml.leaf "pubDate"
                 match astimezone_utc (item_published it) with
                 | Some u => isoformat u
                 | None => str (item_published it)
                 end]
         else [])
     ++ (if Py.truthy (item_summary it)
         then [Xml.leaf "description" (item_summary it)] else [])).

Definition build_rss_xml (channel_title channel_link : string)
                         (items : list item) (w : Env.world)
  : Env.file_content * Env.world :=
  let '(built, w) := Env.datetime_now_utc w in
  let chan :=
    Xml.Element "channel" [] None
      ([ Xml.leaf "title" channel_title;
         Xml.leaf "link" channel_link;
         Xml.leaf "description" ("Daily feed: " +:+ channel_title);
         Xml.leaf "lastBuildDate"
           (isoformat (Env.astimezone_local w built)) ]
       ++ map item_element items) in
  (Env.XmlDocument (Xml.Element "rss" [("version", "2.0")]%string None [chan]),
   w).

(** *** Main logic *)

(** [dateparser.parse(stored_iso)] on a value of the loaded record: dateutil
    raises [TypeError] on what is not a string. *)
Definition parse_stored (stored_iso : Json.json) : option datetime :=
  match stored_iso with
  | Json.JString s => dateparser_parse s
  | _ => None
  end.

(** Lines 144-168 of [process_feed]: the value of [is_new] for one entry.
    Whatever is raised inside the [try] (by the indexing, by the parser)
    leaves it [False]. *)
Definition is_new (last_seen : Json.json) (cutoff : datetime)
                  (eid : string) (edate : option datetime) : bool :=
  if negb (Json.contains last_seen eid) then
    match edate with
    | Some d => if ge d cutoff then true else false
    | None => true
    end
  else
    match Json.getitem last_seen eid with
    | Some stored_iso =>
        match parse_stored stored_iso with
        | Some stored_dt =>
            let stored_dt :=
              if is_naive stored_dt then replace_tzinfo_utc stored_dt
              else stored_dt in
            match edate with
            | Some d =>
                if gt d stored_dt then (if ge d cutoff then true else false)
                else false
            | None => false
            end
        | None => false
        end
    | None => false
    end.

(** Lines 171-177: the dictionary appended to [new_items]. *)
Definition make_item (now : datetime) (e : RawEntry) (eid : string)
                     (edate : option datetime) : item :=
  {| item_id := eid;
     item_title := title e;
     item_link := link e;
     item_summary :=
       Py.get_default (Py.or_opt (Py.or_opt (summary e) (description e))
                                 (Some EmptyString));
     item_published := default now edate |}.

(** Lines 181-186: the stamp stored for the entry. *)
Definition stamp_of (now : datetime) (e : RawEntry)
                    (edate : option datetime) : string :=
  match edate with
  | Some d => isoformat d
  | None =>
      Py.get_default
        (Py.or_opt (Py.or_opt (published e) (updated e))
                   (Some (isoformat now)))
  end.

(** One turn of the loop over [entries], on [(new_items,
    updated_last_seen)]. *)
Definition loop_body (now cutoff : datetime) (last_seen : Json.json)
    (acc : list item * PyDict.dict) (e : RawEntry)
  : list item * PyDict.dict :=
  let '(new_items, updated_last_seen) := acc in
  let eid := parse_entry_id e in
  let edate := parse_entry_date e in
  let new_items :=
    if is_new last_seen cutoff eid edate
    then new_items ++ [make_item now e eid edate]
    else new_items in
  let stamp := stamp_of now e edate in
  (new_items,
   PyDict.setitem (PyDict.KStr eid) (Json.JString stamp) updated_last_seen).

(** The loop of [process_feed], from [new_items = []] and the
    [updated_last_seen] that [dict(last_seen)] gave. *)
Definition classify_entries (now : datetime) (last_seen : Json.json)
    (updated_last_seen : PyDict.dict) (entries : list RawEntry)
  : list item * PyDict.dict :=
  fold_left (loop_body now (sub now DELTA) last_seen) entries
            ([], updated_last_seen).

(** [process_feed]: what the call returns or raises, with the world it
    leaves. [dict(last_seen)] at line 138 stands outside any [try]: what it
    raises leaves [process_feed]. *)
Definition process_feed (feed_key : feed_key) (feed_url : string)
                        (w : Env.world) : Py.result bool * Env.world :=
  match safe_fetch feed_url w with
  | None => (Py.Ok false, w)
  | Some raw =>
      let entries := feedparser_parse raw in
      let '(now, w) := Env.datetime_now_utc w in
      let last_seen_path := LAST_SEEN_FILES feed_key in
      let last_seen := load_last_seen last_seen_path w in
      match PyDict.of_json last_seen with
      | Py.Raise e => (Py.Raise e, w)
      | Py.Ok updated_last_seen =>
          let '(new_items, updated_last_seen) :=
            classify_entries now last_seen updated_last_seen entries in
          let outfn := OUTFILES feed_key in
          let '(rss_bytes, w) :=
            match new_items with
            | _ :: _ =>
                build_rss_xml ("daily_" +:+ key_name feed_key) feed_url
                              new_items w
            | [] =>
                build_rss_xml ("daily_" +:+ key_name feed_key) feed_url [] w
            end in
          let w := Env.open_write outfn rss_bytes w in
          let w := save_last_seen last_seen_path updated_last_seen w in
          (Py.Ok true, w)
      end
  end.

(** The loop of [main] over [FEEDS.items()]: [any_ok] after the feeds
    processed, or the exception that left [process_feed] and ended the
    loop. *)
Definition run_feeds (feeds : list (feed_key * string)) (w : Env.world)
  : Py.result bool * Env.world :=
  fold_left
    (λ (st : Py.result bool * Env.world) (feed : feed_key * string),
       match st with
       | (Py.Ok any_ok, w) =>
           match process_feed feed.1 feed.2 w with
           | (Py.Ok ok, w) => (Py.Ok (any_ok || ok), w)
           | (Py.Raise e, w) => (Py.Raise e, w)
           end
       | (Py.Raise e, w) => (Py.Raise e, w)
       end)
    feeds (Py.Ok false, w).

(** [main]: the exit status of the process with the world it leaves:
    [sys.exit(1)] when no feed was processed, 0 at the normal end, and 1
    again when an exception leaves [main], which has no handler: the
    interpreter prints the traceback and exits with status 1. *)
Definition main (w : Env.world) : Z * Env.world :=
  match run_feeds FEEDS w with
  | (Py.Ok any_ok, w) => if negb any_ok then (1, w) else (0, w)
  | (Py.Raise e, w) => (1, w)
  end.

End Script.

End Feed.

(* ===================================================================== *)
(** ** The specification's vocabulary *)
(* ===================================================================== *)

Module Spec.
Import Datetime Feed.

(** A field the entry does not provide: missing, or the empty string. *)
Definition absent (v : option string) : Prop := v = None ∨ v = Some EmptyString.

(** The key synthesised from title and date (§4.1, candidate 4): the title
    and the published string, or the updated string when there is no
    published string, joined by the separator. *)
Definition synthesized_key (e : RawEntry) : string :=
  let pub := match published e with
             | Some (String a s) => String a s
             | _ => match updated e with
                    | Some s => s
                    | None => EmptyString
                    end
             end in
  match title e with
  | Some t => t
  | None => EmptyString
  end +:+ "||" +:+ pub.

(** [c] is the first success in a list of attempts. *)
Definition first_success_is {A : Type} (attempts : list (option A))
                            (r : option A) : Prop :=
  match r with
  | Some a =>
      ∃ i : nat, attempts !! i = Some (Some a)
                 ∧ ∀ j : nat, (j < i)%nat → attempts !! j = Some None
  | None => Forall (λ c, c = None) attempts
  end.

(** The decision table of §4.3, row by row. The columns are: is the identity
    in the seen record; can the stored stamp be parsed; is a timestamp
    present; is it at or after the cutoff; is it after the stored value. *)
Definition decision_table (in_seen stored_parseable ts_present
                           within_window after_stored : bool) : bool :=
  match in_seen, stored_parseable, ts_present, within_window, after_stored with
  | false, _, false, _, _ => true
  | false, _, true, true, _ => true
  | false, _, true, false, _ => false
  | true, false, _, _, _ => false
  | true, true, false, _, _ => false
  | true, true, true, false, _ => false
  | true, true, true, true, true => true
  | true, true, true, true, false => false
  end.

(** The stored stamp as the classifier reads it: parsed, and taken as UTC
    when it carries no zone. *)
Definition stored_datetime (parse : string → option datetime)
                           (stored_iso : string) : option datetime :=
  match parse stored_iso with
  | Some dt => Some (if is_naive dt then replace_tzinfo_utc dt else dt)
  | None => None
  end.

(** §4.1, timestamp candidates 1 and 2: a structured time, its six civil
    fields read as UTC. *)
Definition structured_utc (v : option struct_time) : option datetime :=
  match v with
  | Some t =>
      of_civil (mk_civil (tm_year t) (tm_mon t) (tm_mday t)
                         (tm_hour t) (tm_min t) (tm_sec t) 0) UTC
  | None => None
  end.

(** A parsed time normalised to UTC: assumed to be UTC when it carries no
    zone, shifted by its offset otherwise; unusable when the result leaves
    the calendar. *)
Definition normalize_utc (dt : datetime) : option datetime :=
  let t := match utcoffset dt with
           | Some off => ticks dt - off * US_PER_SECOND
           | None => ticks dt
           end in
  if in_range t then Some {| ticks := t; utcoffset := UTC |} else None.

(** §4.1, timestamp candidate 3: a non-empty string field read by the
    lenient parser, normalised to UTC. *)
Definition string_utc (parse : string → option datetime)
                      (v : option string) : option datetime :=
  match v with
  | Some (String a s) =>
      match parse (String a s) with
      | Some dt => normalize_utc dt
      | None => None
      end
  | _ => None
  end.

(** The candidates of §4.1 in their precedence order. *)
Definition timestamp_attempts (parse : string → option datetime)
                              (e : RawEntry) : list (option datetime) :=
  [ structured_utc (published_parsed e);
    structured_utc (updated_parsed e);
    string_utc parse (published e);
    string_utc parse (updated e);
    string_utc parse (pubDate e);
    string_utc parse (date e) ].

(** The columns of the decision table for one entry. The identity is in the
    seen record when [in] finds it there; the stored stamp is the string kept
    under it, when there is one. *)
Definition in_seen (last_seen : Json.json) (eid : string) : bool :=
  Json.contains last_seen eid.

Definition stored_stamp (last_seen : Json.json) (eid : string)
  : option string :=
  match Json.getitem last_seen eid with
  | Some (Json.JString s) => Some s
  | _ => None
  end.

Definition stored_parseable (parse : string → option datetime)
    (last_seen : Json.json) (eid : string) : bool :=
  bool_decide (is_Some (stored_stamp last_seen eid ≫= stored_datetime parse)).

Definition ts_present (edate : option datetime) : bool :=
  bool_decide (is_Some edate).

(** The window is the 24 hours up to [now], its first instant included. *)
Definition within_window (now : datetime) (edate : option datetime) : bool :=
  match edate with
  | Some d => bool_decide (instant now - 24 * 3600 * 1000000 ≤ instant d)
  | None => false
  end.

Definition after_stored (parse : string → option datetime)
    (last_seen : Json.json) (eid : string)
    (edate : option datetime) : bool :=
  match edate, stored_stamp last_seen eid ≫= stored_datetime parse with
  | Some d, Some sd => bool_decide (instant sd < instant d)
  | _, _ => false
  end.

(** One entry through the loop of [process_feed]: its verdict, the item it
    contributes when novel, and the stamp stored for it. *)
Definition entry_is_new (parse : string → option datetime) (now : datetime)
    (last_seen : Json.json) (e : RawEntry) : bool :=
  Feed.is_new parse last_seen (sub now DELTA)
    (parse_entry_id e) (Feed.parse_entry_date parse e).

Definition entry_item (parse : string → option datetime) (now : datetime)
    (e : RawEntry) : item :=
  make_item now e (parse_entry_id e) (Feed.parse_entry_date parse e).

Definition entry_stamp (parse : string → option datetime) (now : datetime)
    (e : RawEntry) : string :=
  stamp_of now e (Feed.parse_entry_date parse e).

(** The novel entries of a feed, in encounter order. *)
Definition novel_entries (parse : string → option datetime) (now : datetime)
    (last_seen : Json.json) (entries : list RawEntry)
  : list RawEntry :=
  List.filter (entry_is_new parse now last_seen) entries.

(** The seen record after every entry's stamp has been stored, in order. *)
Definition record_stamps (parse : string → option datetime) (now : datetime)
    (entries : list RawEntry) (d : PyDict.dict) : PyDict.dict :=
  fold_left (λ d e, PyDict.setitem (PyDict.KStr (parse_entry_id e))
                      (Json.JString (entry_stamp parse now e)) d)
            entries d.

(** The dict [process_feed] starts [updated_last_seen] from, when
    [dict(last_seen)] does not raise. *)
Definition initial (last_seen : Json.json) : PyDict.dict :=
  match PyDict.of_json last_seen with
  | Py.Ok d => d
  | Py.Raise _ => []
  end.

(** The value a later [load_last_seen] reads from the file into which
    [save_last_seen] wrote the dict [d]. *)
Definition as_loaded (d : PyDict.dict) : Json.json :=
  Json.JObject (map (λ kv, (PyDict.name kv.1, kv.2)) d).

(** The entry's stamp does not depend on the clock: it has a resolved
    timestamp, or a non-empty published or updated string. *)
Definition has_own_stamp (parse : string → option datetime)
                         (e : RawEntry) : Prop :=
  is_Some (Feed.parse_entry_date parse e)
  ∨ Py.truthy_opt (published e) = true
  ∨ Py.truthy_opt (updated e) = true.

(** The identities persisted for a feed: the keys of the mapping
    [load_last_seen] finds. *)
Definition persisted_ids (k : feed_key) (w : Env.world) : gset string :=
  Json.names (Feed.load_last_seen (LAST_SEEN_FILES k) w).

(** A later run of the whole job: the files stay, the network answers
    anew. *)
Definition next_run (parse : string → option datetime)
    (fparse : string → list RawEntry) (w : Env.world)
    (net : string → option string) : Env.world :=
  (Feed.main parse fparse
     {| Env.files := Env.files w; Env.urlopen := net;
        Env.clock := Env.clock w; Env.clock_reads := Env.clock_reads w;
        Env.local_utcoffset := Env.local_utcoffset w |}).2.

(** The [item] elements of a written document, in document order. *)
Definition document_items (c : Env.file_content) : list Xml.element :=
  match c with
  | Env.XmlDocument root =>
      match Xml.find "channel" root with
      | Some chan => Xml.findall "item" chan
      | None => []
      end
  | _ => []
  end.

(** What a path holds, whatever its permissions. *)
Definition content_at (path : string) (w : Env.world)
  : option Env.file_content :=
  Env.content <$> Env.files w !! path.

(** The date parser reads the stamp of the entry's timestamp back as that
    timestamp. *)
Definition reads_back (parse : string → option datetime)
                      (e : RawEntry) : Prop :=
  match Feed.parse_entry_date parse e with
  | Some d => parse (isoformat d) = Some d
  | None => True
  end.

(** The text of a field the entry provides: there, and not empty. *)
Definition provided (v : option string) : option string :=
  match v with
  | Some (String a s) => Some (String a s)
  | _ => None
  end.

(** §8.2 as a statement about two runs of the loop over the same entries,
    the second from the seen record of the first: the second finds nothing
    new and leaves the seen record as it was. *)
Definition rerun_is_idle (parse : string → option datetime)
    (now1 now2 : datetime) (last_seen : Json.json)
    (entries : list RawEntry) : Prop :=
  let first :=
    Feed.classify_entries parse now1 last_seen (initial last_seen) entries in
  let seen := as_loaded first.2 in
  let second :=
    Feed.classify_entries parse now2 seen (initial seen) entries in
  second.1 = [] ∧ second.2 = first.2.

(** §6 as a statement about one item: an entry without a resolvable date
    yields an item without a pubDate element. *)
Definition undated_item_has_no_pubDate (parse : string → option datetime)
    (now : datetime) (e : RawEntry) : Prop :=
  Feed.parse_entry_date parse e = None →
  Xml.find "pubDate" (item_element (entry_item parse now e)) = None.


(** The identity of §4.1: the first of id, guid and link that is provided,
    else the synthesised key. *)
Definition identity (e : RawEntry) : string :=
  match provided (id e), provided (guid e), provided (link e) with
  | Some s, _, _ => s
  | None, Some s, _ => s
  | None, None, Some s => s
  | None, None, None => synthesized_key e
  end.

(** The timestamp of §4.1: the first candidate that succeeds. *)
Definition resolved_timestamp (parse : string → option datetime)
                              (e : RawEntry) : option datetime :=
  Py.first_success (λ c : option datetime, c) (timestamp_attempts parse e).

(** The verdict of the decision table of §4.3 on one entry. *)
Definition table_verdict (parse : string → option datetime) (now : datetime)
    (last_seen : Json.json) (e : RawEntry) : bool :=
  decision_table
    (in_seen last_seen (identity e))
    (stored_parseable parse last_seen (identity e))
    (ts_present (resolved_timestamp parse e))
    (within_window now (resolved_timestamp parse e))
    (after_stored parse last_seen (identity e) (resolved_timestamp parse e)).

(** The texts an item element carries under the five tags of §6: title,
    link, guid, pubDate, description. *)
Definition item_texts (el : Xml.element)
  : option string * option string * option string * option string
    * option string :=
  (Xml.findtext "title" el, Xml.findtext "link" el, Xml.findtext "guid" el,
   Xml.findtext "pubDate" el, Xml.findtext "description" el).

(** The texts of the item of one novel entry: its title and link when
    provided, its identity, the ISO form of its timestamp (of [now] when it
    has none), and its summary, else its description, when provided. *)
Definition expected_texts (parse : string → option datetime) (now : datetime)
    (e : RawEntry)
  : option string * option string * option string * option string
    * option string :=
  (provided (title e), provided (link e), Some (identity e),
   Some match resolved_timestamp parse e with
        | Some d => isoformat d
        | None =>
            match astimezone_utc now with
            | Some u => isoformat u
            | None => str now
            end
        end,
   match provided (summary e) with
   | Some s => Some s
   | None => provided (description e)
   end).


End Spec.

(* ===================================================================== *)
(** ** Concrete collaborators and inputs for the examples *)
(* ===================================================================== *)

Module Sample.
Import Datetime Feed.

(** *** A date parser for the strings [isoformat] writes

    [YYYY-MM-DD(T| )HH:MM:SS[.ffffff][Z|+HH:MM|-HH:MM]]. dateutil reads each
    of these as the same datetime (and reads many more strings besides);
    everything else is refused here. *)

Definition digit_value (c : ascii) : option Z :=
  let n := Z.of_nat (nat_of_ascii c) in
  if (48 <=? n) && (n <=? 57) then Some (n - 48) else None.

(** Reads [k] decimal digits. *)
Fixpoint digits (k : nat) (acc : Z) (s : string) : option (Z * string) :=
  match k with
  | O => Some (acc, s)
  | S k' =>
      match s with
      | String c s' =>
          match digit_value c with
          | Some d => digits k' (acc * 10 + d) s'
          | None => None
          end
      | EmptyString => None
      end
  end.

(** Reads one of the characters of [cs]. *)
Definition one_of (cs : list ascii) (s : string) : option string :=
  match s with
  | String c s' => if bool_decide (c ∈ cs) then Some s' else None
  | EmptyString => None
  end.

Definition fraction (s : string) : option (Z * string) :=
  match s with
  | String "." s' => digits 6 0 s'
  | _ => Some (0, s)
  end.

Definition zone (s : string) : option (option Z) :=
  match s with
  | EmptyString => Some None
  | String "Z" EmptyString => Some (Some 0)
  | String sign s' =>
      if bool_decide (sign = "+"%char ∨ sign = "-"%char) then
        '(hh, s1) ← digits 2 0 s';
        s2 ← one_of [":"%char] s1;
        '(mm, s3) ← digits 2 0 s2;
        match s3 with
        | EmptyString =>
            let off := hh * 3600 + mm * 60 in
            Some (Some (if bool_decide (sign = "-"%char) then - off else off))
        | _ => None
        end
      else None
  end.

Definition iso_parse (s : string) : option datetime :=
  '(y, s) ← digits 4 0 s;
  s ← one_of ["-"%char] s;
  '(m, s) ← digits 2 0 s;
  s ← one_of ["-"%char] s;
  '(d, s) ← digits 2 0 s;
  s ← one_of ["T"%char; " "%char] s;
  '(hh, s) ← digits 2 0 s;
  s ← one_of [":"%char] s;
  '(mm, s) ← digits 2 0 s;
  s ← one_of [":"%char] s;
  '(ss, s) ← digits 2 0 s;
  '(us, s) ← fraction s;
  tz ← zone s;
  of_civil (mk_civil y m d hh mm ss us) tz.

(** *** Entries *)

Definition no_fields : RawEntry :=
  {| id := None; guid := None; link := None; title := None;
     published := None; updated := None; pubDate := None; date := None;
     summary := None; description := None;
     published_parsed := None; updated_parsed := None |}.

(** An entry with a title and nothing else. *)
Definition titled (t : string) : RawEntry :=
  {| id := None; guid := None; link := None; title := Some t;
     published := None; updated := None; pubDate := None; date := None;
     summary := None; description := None;
     published_parsed := None; updated_parsed := None |}.

(** An entry with an id, a title, a link, a summary and a published string. *)
Definition article (i t l s p : string) : RawEntry :=
  {| id := Some i; guid := None; link := Some l; title := Some t;
     published := Some p; updated := None; pubDate := None; date := None;
     summary := Some s; description := None;
     published_parsed := None; updated_parsed := None |}.

(** An entry with an id and a structured published time. *)
Definition structured (i : string) (t : struct_time) : RawEntry :=
  {| id := Some i; guid := None; link := None; title := None;
     published := None; updated := None; pubDate := None; date := None;
     summary := None; description := None;
     published_parsed := Some t; updated_parsed := None |}.

(** An instant given by its UTC civil fields; [now = 2024-01-02T00:00:00Z]
    is the instant of the scenarios of §8. *)
Definition at_utc (y m d hh mm ss : Z) : datetime :=
  {| ticks := civil_ticks (mk_civil y m d hh mm ss 0); utcoffset := UTC |}.

Definition now_2024_01_02 : datetime := at_utc 2024 1 2 0 0 0.

(** Two items of one feed that carry the same id with different dates. *)
Definition twice_listed : list RawEntry :=
  [ article "urn:a" "A" "https://example.org/a" "first"
            "2024-01-01T12:00:00+00:00";
    article "urn:a" "A" "https://example.org/a" "first"
            "2023-12-01T00:00:00+00:00" ].

(** A feed of three distinct items: one recent, one old, one undated. *)
Definition three_items : list RawEntry :=
  [ article "urn:a" "A" "https://example.org/a" "first"
            "2024-01-01T12:00:00+00:00";
    article "urn:b" "B" "https://example.org/b" "second"
            "2023-12-01T00:00:00+00:00";
    titled "C" ].

(** A feed of two distinct dated items. *)
Definition two_dated : list RawEntry :=
  [ article "urn:a" "A" "https://example.org/a" "first"
            "2024-01-01T12:00:00+00:00";
    article "urn:b" "B" "https://example.org/b" "second"
            "2023-12-01T00:00:00+00:00" ].

(** *** Worlds *)

(** A feed parser that knows four payloads. *)
Definition feed_of (raw : string) : list RawEntry :=
  if bool_decide (raw = "three"%string) then three_items
  else if bool_decide (raw = "twice"%string) then twice_listed
  else if bool_decide (raw = "undated"%string) then [titled "C"]
  else [].

(** A network on which only the [bd] feed answers. *)
Definition only_bd (payload : string) (url : string) : option string :=
  if bool_decide (url = "https://evilgodfahim.github.io/bd/articles.xml"%string)
  then Some payload else None.

(** A network on which only the [master] feed answers. *)
Definition only_master (payload : string) (url : string) : option string :=
  if bool_decide
       (url = "https://evilgodfahim.github.io/Longreads/filtered.xml"%string)
  then Some payload else None.

(** A first run: empty working directory, a clock that stands at
    2024-01-02T00:00:00Z and advances one second per reading. *)
Definition fresh (net : string → option string) : Env.world :=
  {| Env.files := ∅;
     Env.urlopen := net;
     Env.clock := λ n, ticks now_2024_01_02 + Z.of_nat n * US_PER_SECOND;
     Env.clock_reads := 0;
     Env.local_utcoffset := 0 |}.

(** The same, with a seen-state file that is not JSON. *)
Definition corrupt (net : string → option string) : Env.world :=
  Env.set_files
    {[ "last_seen_bd.json"%string :=
         {| Env.readable := true; Env.content := Env.OtherText "{oops" |} ]}
    (fresh net).

(** The same, with a seen-state file for [bd] that holds the given JSON
    text. *)
Definition with_state (v : Json.json) (net : string → option string)
  : Env.world :=
  Env.set_files
    {[ "last_seen_bd.json"%string :=
         {| Env.readable := true; Env.content := Env.JsonText v |} ]}
    (fresh net).

(** A network on which both feeds answer. *)
Definition both (payload : string) (url : string) : option string :=
  Some payload.

End Sample.

(* ===================================================================== *)
(** ** Properties *)
(* ===================================================================== *)

Import Datetime Feed Spec.

(** *** Python idioms *)

Lemma truthy_opt_absent (v : option string) :
  Py.truthy_opt v = false ↔ absent v.
Proof.
  unfold absent. destruct v as [[|a s]|]; simpl; split; intros H;
    try done; auto; destruct H as [H|H]; discriminate.
Qed.

Lemma truthy_opt_Some (v : option string) :
  Py.truthy_opt v = true ↔ ∃ a s, v = Some (String a s).
Proof.
  destruct v as [[|a s]|]; simpl; split; intros H; try done; eauto;
    destruct H as (a' & s' & H); discriminate.
Qed.

Lemma present_None (v : option string) : present v = None ↔ absent v.
Proof.
  unfold absent. destruct v as [[|a s]|]; simpl; split; intros H;
    try done; auto; destruct H as [H|H]; discriminate.
Qed.

Lemma present_Some (v : option string) (s : string) :
  present v = Some s ↔ v = Some s ∧ s ≠ EmptyString.
Proof.
  destruct v as [[|a t]|]; simpl; split.
  all: try (intros [H1 H2]; inversion H1; subst; done).
  all: try discriminate.
  intros H; inversion H; subst. split; [done | discriminate].
Qed.

Lemma first_success_spec {A B : Type} (f : A → option B) (l : list A) :
  first_success_is (map f l) (Py.first_success f l).
Proof.
  induction l as [|x l IH]; simpl.
  - constructor.
  - destruct (f x) as [y|] eqn:Hx.
    + exists 0%nat. split; [done | intros j Hj; lia].
    + destruct (Py.first_success f l) as [y|]; simpl in *.
      * destruct IH as (i & Hi & Hlt). exists (S i). split; [done |].
        intros [|j] Hj; simpl; [done | apply Hlt; lia].
      * by constructor.
Qed.

Lemma first_success_is_app {A : Type} (l1 l2 : list (option A)) :
  Forall (λ c, c = None) l1 →
  ∀ r, first_success_is l2 r → first_success_is (l1 ++ l2) r.
Proof.
  intros H1 [a|]; simpl.
  - intros (i & Hi & Hlt). exists (length l1 + i)%nat. split.
    + by rewrite lookup_app_r, Nat.add_comm, Nat.add_sub by lia.
    + intros j Hj. destruct (decide (j < length l1)%nat) as [Hl|Hl].
      * rewrite lookup_app_l by done.
        destruct (lookup_lt_is_Some_2 l1 j Hl) as [c Hc].
        rewrite Hc. f_equal.
        by eapply (proj1 (Forall_lookup _ _) H1).
      * rewrite lookup_app_r by lia. apply Hlt. lia.
  - intros H2. by apply Forall_app.
Qed.

(** *** Datetime arithmetic *)

Lemma instant_sub (d : datetime) (delta : Z) :
  instant (sub d delta) = instant d - delta.
Proof. unfold instant, sub; simpl. lia. Qed.

Lemma ge_spec (a b : datetime) : ge a b = true ↔ instant b ≤ instant a.
Proof. unfold ge. apply Z.leb_le. Qed.

Lemma gt_spec (a b : datetime) : gt a b = true ↔ instant b < instant a.
Proof. unfold gt. apply Z.ltb_lt. Qed.

Lemma DELTA_microseconds : DELTA = 86400000000.
Proof. reflexivity. Qed.

Lemma astimezone_utc_offset (d u : datetime) :
  astimezone_utc d = Some u → utcoffset u = UTC.
Proof.
  unfold astimezone_utc. destruct (utcoffset d); [|done].
  case_match; [|done]. by intros [= <-].
Qed.

Lemma astimezone_utc_instant (d u : datetime) :
  astimezone_utc d = Some u → instant u = instant d.
Proof.
  unfold astimezone_utc, instant. destruct (utcoffset d) as [off|]; [|done].
  case_match; [|done]. intros [= <-]. simpl. lia.
Qed.

Lemma astimezone_utc_of_utc (d : datetime) :
  utcoffset d = UTC → in_range (ticks d) = true → astimezone_utc d = Some d.
Proof.
  intros Hu Hr. unfold astimezone_utc. rewrite Hu. cbv [UTC].
  change (0 * US_PER_SECOND) with 0. rewrite Z.sub_0_r, Hr.
  destruct d; simpl in *; by subst.
Qed.

(** *** Entry normaliser *)

(** C3: [parse_entry_id] picks the identity by strict precedence, the first
    non-empty candidate winning: the id field, then the guid field, then the
    link, then the title and the published (else updated) string joined by
    ["||"]; and it is a function of the entry alone, so equal entries get
    equal identities. *)
Theorem parse_entry_id_precedence (e : RawEntry) :
  (∀ s, id e = Some s → s ≠ EmptyString → parse_entry_id e = s)
  ∧ (absent (id e) →
     ∀ s, guid e = Some s → s ≠ EmptyString → parse_entry_id e = s)
  ∧ (absent (id e) → absent (guid e) →
     ∀ s, link e = Some s → s ≠ EmptyString → parse_entry_id e = s)
  ∧ (absent (id e) → absent (guid e) → absent (link e) →
     parse_entry_id e = synthesized_key e)
  ∧ (∀ e', e' = e → parse_entry_id e' = parse_entry_id e).
Proof.
  unfold parse_entry_id. repeat split.
  - intros s Hs Hne.
    by rewrite (proj2 (present_Some _ _) (conj Hs Hne)).
  - intros Hi s Hs Hne. apply present_None in Hi. rewrite Hi.
    by rewrite (proj2 (present_Some _ _) (conj Hs Hne)).
  - intros Hi Hg s Hs Hne. apply present_None in Hi, Hg. rewrite Hi, Hg.
    by rewrite (proj2 (present_Some _ _) (conj Hs Hne)).
  - intros Hi Hg Hl. apply present_None in Hi, Hg, Hl. rewrite Hi, Hg, Hl.
    unfold synthesized_key, Py.or_str, Py.get_default.
    destruct (title e), (published e) as [[|a p]|], (updated e); reflexivity.
  - by intros e' ->.
Qed.

Lemma synthesized_key_nonempty (e : RawEntry) :
  synthesized_key e ≠ EmptyString.
Proof.
  unfold synthesized_key. destruct (title e) as [[|a t]|]; simpl; discriminate.
Qed.

Lemma parse_entry_id_nonempty (e : RawEntry) :
  Py.truthy (parse_entry_id e) = true.
Proof.
  unfold parse_entry_id.
  destruct (present (id e)) as [s|] eqn:Hi.
  { apply present_Some in Hi as [_ Hne]. by destruct s. }
  destruct (present (guid e)) as [s|] eqn:Hg.
  { apply present_Some in Hg as [_ Hne]. by destruct s. }
  destruct (present (link e)) as [s|] eqn:Hl.
  { apply present_Some in Hl as [_ Hne]. by destruct s. }
  destruct (Py.get_default (title e)); reflexivity.
Qed.

(** *** Calendar range *)

Lemma civil_valid_bounds (c : civil) :
  civil_valid c = true →
  (1 ≤ year c ≤ 9999) ∧ (1 ≤ month c ≤ 12)
  ∧ (1 ≤ day c ≤ days_in_month (year c) (month c))
  ∧ (0 ≤ hour c ≤ 23) ∧ (0 ≤ minute c ≤ 59) ∧ (0 ≤ second c ≤ 59)
  ∧ (0 ≤ microsecond c ≤ 999999).
Proof.
  unfold civil_valid. rewrite !andb_true_iff, !Z.leb_le. tauto.
Qed.

Lemma is_leap_spec (y : Z) :
  is_leap y = true ↔ y mod 4 = 0 ∧ (y mod 100 ≠ 0 ∨ y mod 400 = 0).
Proof.
  unfold is_leap.
  rewrite andb_true_iff, orb_true_iff, negb_true_iff, Z.eqb_neq, !Z.eqb_eq.
  tauto.
Qed.

Lemma days_before_next_year (y : Z) :
  days_before_year (y + 1)
  = days_before_year y + 365 + (if is_leap y then 1 else 0).
Proof.
  unfold days_before_year, is_leap.
  replace (y + 1 - 1) with y by lia.
  assert (H4 : y / 4 = (y - 1) / 4 + (if y mod 4 =? 0 then 1 else 0)).
  { destruct (Z.eqb_spec (y mod 4) 0); Z.div_mod_to_equations; lia. }
  assert (H100 : y / 100
                 = (y - 1) / 100 + (if y mod 100 =? 0 then 1 else 0)).
  { destruct (Z.eqb_spec (y mod 100) 0); Z.div_mod_to_equations; lia. }
  assert (H400 : y / 400
                 = (y - 1) / 400 + (if y mod 400 =? 0 then 1 else 0)).
  { destruct (Z.eqb_spec (y mod 400) 0); Z.div_mod_to_equations; lia. }
  assert (Hd1 : y mod 400 = 0 → y mod 100 = 0).
  { intros H. rewrite (Z.div_mod y 400) by lia. rewrite H, Z.add_0_r.
    replace (400 * (y / 400)) with (4 * (y / 400) * 100) by lia.
    apply Z.mod_mul. lia. }
  assert (Hd2 : y mod 100 = 0 → y mod 4 = 0).
  { intros H. rewrite (Z.div_mod y 100) by lia. rewrite H, Z.add_0_r.
    replace (100 * (y / 100)) with (25 * (y / 100) * 4) by lia.
    apply Z.mod_mul. lia. }
  rewrite H4, H100, H400.
  destruct (Z.eqb_spec (y mod 4) 0), (Z.eqb_spec (y mod 100) 0),
    (Z.eqb_spec (y mod 400) 0); simpl; lia.
Qed.

Lemma days_before_year_mono (y1 y2 : Z) :
  y1 ≤ y2 → days_before_year y1 ≤ days_before_year y2.
Proof.
  intros H. replace y2 with (y1 + (y2 - y1)) by lia.
  assert (Hn : 0 ≤ y2 - y1) by lia. revert Hn.
  generalize (y2 - y1). apply natlike_ind.
  - by rewrite Z.add_0_r.
  - intros n Hn IH. replace (y1 + Z.succ n) with (y1 + n + 1) by lia.
    rewrite days_before_next_year. destruct (is_leap (y1 + n)); lia.
Qed.

Lemma day_of_year_bounds (y m d : Z) :
  1 ≤ m ≤ 12 → 1 ≤ d ≤ days_in_month y m →
  1 ≤ days_before_month y m + d ≤ 365 + (if is_leap y then 1 else 0).
Proof.
  intros Hm Hd. unfold days_before_month, days_in_month in *.
  assert (Hcases : m = 1 ∨ m = 2 ∨ m = 3 ∨ m = 4 ∨ m = 5 ∨ m = 6 ∨ m = 7
                   ∨ m = 8 ∨ m = 9 ∨ m = 10 ∨ m = 11 ∨ m = 12) by lia.
  destruct (is_leap y);
    repeat (destruct Hcases as [->|Hcases]); try subst m; simpl in *; lia.
Qed.

Lemma ymd2ord_bounds (y m d : Z) :
  1 ≤ y ≤ 9999 → 1 ≤ m ≤ 12 → 1 ≤ d ≤ days_in_month y m →
  1 ≤ ymd2ord y m d ≤ MAXORDINAL.
Proof.
  intros Hy Hm Hd. unfold ymd2ord.
  pose proof (day_of_year_bounds y m d Hm Hd) as Hdoy.
  pose proof (days_before_next_year y) as Hnext.
  pose proof (days_before_year_mono 1 y ltac:(lia)) as Hlo.
  pose proof (days_before_year_mono (y + 1) 10000 ltac:(lia)) as Hhi.
  change (days_before_year 1) with 0 in Hlo.
  change (days_before_year 10000) with 3652059 in Hhi.
  unfold MAXORDINAL. lia.
Qed.

Lemma civil_ticks_in_range (c : civil) :
  civil_valid c = true → in_range (civil_ticks c) = true.
Proof.
  intros (Hy & Hm & Hd & Hh & Hmi & Hs & Hus)%civil_valid_bounds.
  pose proof (ymd2ord_bounds _ _ _ Hy Hm Hd) as Hord.
  unfold in_range, civil_ticks, MIN_TICKS, MAX_TICKS, MAXORDINAL, US_PER_DAY,
    US_PER_SECOND in *.
  apply andb_true_iff. rewrite !Z.leb_le. lia.
Qed.

(** *** Calendar round trip *)

Lemma month_day_spec (leap : bool) (m d : Z) :
  1 ≤ m ≤ 12 →
  1 ≤ d ≤ (if m =? 2 then (if leap then 29 else 28)
           else if (m =? 4) || (m =? 6) || (m =? 9) || (m =? 11)
                then 30 else 31) →
  month_day (days_before_month_table m
             + (if (2 <? m) && leap then 1 else 0) + d - 1) leap
  = (m, d).
Proof.
  intros Hm Hd.
  assert (Hcases : m = 1 ∨ m = 2 ∨ m = 3 ∨ m = 4 ∨ m = 5 ∨ m = 6 ∨ m = 7
                   ∨ m = 8 ∨ m = 9 ∨ m = 10 ∨ m = 11 ∨ m = 12) by lia.
  unfold month_day. rewrite Z.shiftr_div_pow2 by lia. change (2 ^ 5) with 32.
  destruct leap;
  repeat (destruct Hcases as [->|Hcases]); try subst m; simpl in Hd;
    cbn [days_before_month_table Z.ltb Z.compare Pos.compare
         Pos.compare_cont andb].
  all: match goal with
       | |- context [(?n + 50) / 32] =>
           match goal with
           | |- _ = (?m0, _) =>
               let Hq := fresh "Hq" in
               assert (Hq : (n + 50) / 32 = m0 ∨ (n + 50) / 32 = m0 + 1)
                 by (Z.div_mod_to_equations; lia);
               destruct Hq as [Hq|Hq]; rewrite Hq; simpl;
               repeat match goal with
                      | |- context [?a <? ?b] => destruct (Z.ltb_spec a b)
                      end;
               first [f_equal; lia | lia]
           end
       end.
Qed.

Lemma ord2ymd_digits (a b c e doy : Z) :
  0 ≤ a → 0 ≤ b < 4 → 0 ≤ c < 25 → 0 ≤ e < 4 →
  0 ≤ doy ≤ 364 + (if (e =? 3) && (negb (c =? 24) || (b =? 3))
                   then 1 else 0) →
  ord2ymd (146097 * a + 36524 * b + 1461 * c + 365 * e + doy + 1)
  = if doy =? 365 then (400 * a + 100 * b + 4 * c + e + 1, 12, 31)
    else let '(m, d) :=
           month_day doy ((e =? 3) && (negb (c =? 24) || (b =? 3))) in
         (400 * a + 100 * b + 4 * c + e + 1, m, d).
Proof.
  intros Ha Hb Hc He Hdoy.
  set (leap := (e =? 3) && (negb (c =? 24) || (b =? 3))) in *.
  assert (Hleap : leap = true ↔ e = 3 ∧ (c ≠ 24 ∨ b = 3)).
  { unfold leap.
    rewrite andb_true_iff, orb_true_iff, negb_true_iff, Z.eqb_neq, !Z.eqb_eq.
    tauto. }
  assert (Hdoy' : 0 ≤ doy ≤ 364 ∨ (doy = 365 ∧ e = 3 ∧ (c ≠ 24 ∨ b = 3))).
  { destruct leap; [|lia]. destruct (proj1 Hleap eq_refl). lia. }
  unfold ord2ymd, DI400Y, DI100Y, DI4Y.
  replace (146097 * a + 36524 * b + 1461 * c + 365 * e + doy + 1 - 1)
    with (146097 * a + (36524 * b + 1461 * c + 365 * e + doy)) by lia.
  set (R := 36524 * b + 1461 * c + 365 * e + doy).
  assert (HR : 0 ≤ R < 146097) by (unfold R; lia).
  assert (H1 : (146097 * a + R) / 146097 = a) by (Z.div_mod_to_equations; lia).
  assert (H2 : (146097 * a + R) mod 146097 = R)
    by (Z.div_mod_to_equations; lia).
  cbv zeta. rewrite H1, H2. clear H1 H2.
  destruct (Z.eqb_spec doy 365) as [Hd365|Hd365].
  - (* last day of a leap year *)
    destruct Hdoy' as [?|(_ & -> & Hcb)]; [lia|].
    destruct (decide (c = 24)) as [->|Hc24].
    + assert (b = 3) by lia. subst b doy. unfold R. simpl.
      do 2 f_equal. Z.div_mod_to_equations. lia.
    + assert (H3 : R / 36524 = b) by (unfold R; Z.div_mod_to_equations; lia).
      assert (H4 : R mod 36524 = 1461 * c + 365 * 3 + doy)
        by (unfold R; Z.div_mod_to_equations; lia).
      rewrite H3, H4.
      assert (H5 : (1461 * c + 365 * 3 + doy) / 1461 = c)
        by (Z.div_mod_to_equations; lia).
      assert (H6 : (1461 * c + 365 * 3 + doy) mod 1461 = 365 * 3 + doy)
        by (Z.div_mod_to_equations; lia).
      rewrite H5, H6. subst doy.
      replace ((365 * 3 + 365) / 365) with 4 by reflexivity.
      simpl. do 2 f_equal. lia.
  - assert (Hd : 0 ≤ doy ≤ 364) by lia.
    assert (H3 : R / 36524 = b) by (unfold R; Z.div_mod_to_equations; lia).
    assert (H4 : R mod 36524 = 1461 * c + 365 * e + doy)
      by (unfold R; Z.div_mod_to_equations; lia).
    rewrite H3, H4.
    assert (H5 : (1461 * c + 365 * e + doy) / 1461 = c)
      by (Z.div_mod_to_equations; lia).
    assert (H6 : (1461 * c + 365 * e + doy) mod 1461 = 365 * e + doy)
      by (Z.div_mod_to_equations; lia).
    rewrite H5, H6.
    assert (H7 : (365 * e + doy) / 365 = e) by (Z.div_mod_to_equations; lia).
    assert (H8 : (365 * e + doy) mod 365 = doy)
      by (Z.div_mod_to_equations; lia).
    rewrite H7, H8.
    replace (e =? 4) with false by (symmetry; apply Z.eqb_neq; lia).
    replace (b =? 4) with false by (symmetry; apply Z.eqb_neq; lia).
    simpl orb. cbv iota. fold leap.
    unfold month_day.
    replace (a * 400 + 1 + b * 100 + c * 4 + e)
      with (400 * a + 100 * b + 4 * c + e + 1) by lia.
    destruct (_ <? _); reflexivity.
Qed.

Lemma last_day_of_year (y m d : Z) :
  1 ≤ m ≤ 12 → 1 ≤ d ≤ days_in_month y m →
  days_before_month y m + d - 1 = 365 → m = 12 ∧ d = 31.
Proof.
  intros Hm Hd H365. unfold days_before_month, days_in_month in *.
  assert (Hcases : m = 1 ∨ m = 2 ∨ m = 3 ∨ m = 4 ∨ m = 5 ∨ m = 6 ∨ m = 7
                   ∨ m = 8 ∨ m = 9 ∨ m = 10 ∨ m = 11 ∨ m = 12) by lia.
  destruct (is_leap y);
    repeat (destruct Hcases as [->|Hcases]); try subst m; simpl in *; lia.
Qed.

Lemma ord2ymd_ymd2ord (y m d : Z) :
  1 ≤ y → 1 ≤ m ≤ 12 → 1 ≤ d ≤ days_in_month y m →
  ord2ymd (ymd2ord y m d) = (y, m, d).
Proof.
  intros Hy Hm Hd.
  set (a := (y - 1) / 400).
  set (b := ((y - 1) mod 400) / 100).
  set (c := ((y - 1) mod 100) / 4).
  set (e := (y - 1) mod 4).
  assert (Hdigits : y = 400 * a + 100 * b + 4 * c + e + 1
                    ∧ 0 ≤ a ∧ 0 ≤ b < 4 ∧ 0 ≤ c < 25 ∧ 0 ≤ e < 4).
  { unfold a, b, c, e. Z.div_mod_to_equations. lia. }
  destruct Hdigits as (Hyd & Ha & Hb & Hc & He).
  assert (Hdby : days_before_year y
                 = 146097 * a + 36524 * b + 1461 * c + 365 * e).
  { unfold days_before_year. rewrite Hyd.
    replace (400 * a + 100 * b + 4 * c + e + 1 - 1)
      with (400 * a + 100 * b + 4 * c + e) by lia.
    Z.div_mod_to_equations. lia. }
  assert (Hleap : is_leap y = (e =? 3) && (negb (c =? 24) || (b =? 3))).
  { apply eq_true_iff_eq. rewrite is_leap_spec.
    rewrite andb_true_iff, orb_true_iff, negb_true_iff, Z.eqb_neq, !Z.eqb_eq.
    rewrite Hyd. clear Hdby Hd. Z.div_mod_to_equations. lia. }
  pose proof (day_of_year_bounds y m d Hm Hd) as Hdoy.
  unfold ymd2ord. rewrite Hdby.
  replace (146097 * a + 36524 * b + 1461 * c + 365 * e
           + days_before_month y m + d)
    with (146097 * a + 36524 * b + 1461 * c + 365 * e
          + (days_before_month y m + d - 1) + 1) by lia.
  rewrite ord2ymd_digits; try done.
  2:{ rewrite <- Hleap. lia. }
  rewrite <- Hleap, <- Hyd.
  destruct (Z.eqb_spec (days_before_month y m + d - 1) 365) as [H365|H365].
  - destruct (last_day_of_year y m d Hm Hd H365) as [-> ->]. done.
  - unfold days_before_month. rewrite month_day_spec; [done|done|].
    unfold days_in_month in Hd. exact Hd.
Qed.

Lemma to_civil_of_civil (c : civil) (tz : option Z) (dt : datetime) :
  of_civil c tz = Some dt → to_civil dt = c ∧ utcoffset dt = tz.
Proof.
  unfold of_civil. destruct (civil_valid c) eqn:Hv; [|done].
  intros [= <-]. split; [|done].
  apply civil_valid_bounds in Hv as (Hy & Hm & Hd & Hh & Hmi & Hs & Hus).
  pose proof (ymd2ord_bounds _ _ _ Hy Hm Hd) as Hord.
  unfold to_civil, civil_ticks, US_PER_DAY, US_PER_SECOND. cbn [ticks].
  set (o := ymd2ord (year c) (month c) (day c)) in *.
  set (secs := hour c * 3600 + minute c * 60 + second c).
  assert (Hsecs : 0 ≤ secs < 86400) by (unfold secs; lia).
  assert (H1 : (((o - 1) * 86400 + hour c * 3600 + minute c * 60 + second c)
                * 1000000 + microsecond c) / (86400 * 1000000) = o - 1).
  { fold secs. Z.div_mod_to_equations. lia. }
  assert (H2 : (((o - 1) * 86400 + hour c * 3600 + minute c * 60 + second c)
                * 1000000 + microsecond c) mod (86400 * 1000000)
               = secs * 1000000 + microsecond c).
  { fold secs. Z.div_mod_to_equations. lia. }
  rewrite H1, H2. replace (o - 1 + 1) with o by lia.
  unfold o. rewrite ord2ymd_ymd2ord by lia.
  assert (H3 : (secs * 1000000 + microsecond c) / 1000000 = secs)
    by (Z.div_mod_to_equations; lia).
  assert (H4 : (secs * 1000000 + microsecond c) mod 1000000 = microsecond c)
    by (Z.div_mod_to_equations; lia).
  rewrite H3, H4.
  assert (H5 : secs / 3600 = hour c)
    by (unfold secs; Z.div_mod_to_equations; lia).
  assert (H6 : (secs mod 3600) / 60 = minute c)
    by (unfold secs; Z.div_mod_to_equations; lia).
  assert (H7 : secs mod 60 = second c)
    by (unfold secs; Z.div_mod_to_equations; lia).
  rewrite H5, H6, H7. by destruct c.
Qed.

(** *** JSON objects *)

Import Json PyDict.

#[local] Abbreviation add_member :=
  (λ (ms : list (string * json)) (kv : string * json),
     set_member kv.1 kv.2 ms).

Lemma set_member_names (n : string) (v : json) (ms : list (string * json))
    (s : string) :
  s ∈ (set_member n v ms).*1 ↔ s = n ∨ s ∈ ms.*1.
Proof.
  induction ms as [|[n' v'] ms IH]; simpl.
  - rewrite list_elem_of_singleton, elem_of_nil. tauto.
  - case_bool_decide as Hn; simpl; rewrite !elem_of_cons.
    + subst n'. tauto.
    + rewrite IH. tauto.
Qed.

Lemma set_member_NoDup (n : string) (v : json) (ms : list (string * json)) :
  NoDup ms.*1 → NoDup (set_member n v ms).*1.
Proof.
  induction ms as [|[n' v'] ms IH]; simpl; intros Hnd.
  - apply NoDup_singleton.
  - apply NoDup_cons in Hnd as [Hn' Hnd].
    case_bool_decide as Hn; simpl; apply NoDup_cons.
    + done.
    + split; [|by apply IH]. rewrite set_member_names. intros [->|H]; done.
Qed.

Lemma set_member_fresh (n : string) (v : json) (ms : list (string * json)) :
  n ∉ ms.*1 → set_member n v ms = ms ++ [(n, v)].
Proof.
  induction ms as [|[n' v'] ms IH]; simpl; intros Hn; [done|].
  apply not_elem_of_cons in Hn as [Hne Hn].
  rewrite bool_decide_eq_false_2 by done. by rewrite IH.
Qed.

Lemma fold_members_names (ms acc : list (string * json)) (s : string) :
  s ∈ (fold_left add_member ms acc).*1 ↔ s ∈ acc.*1 ∨ s ∈ ms.*1.
Proof.
  revert acc. induction ms as [|[n v] ms IH]; intros acc; simpl.
  - rewrite elem_of_nil. tauto.
  - rewrite IH, set_member_names, elem_of_cons. tauto.
Qed.

Lemma fold_members_NoDup (ms acc : list (string * json)) :
  NoDup acc.*1 → NoDup (fold_left add_member ms acc).*1.
Proof.
  revert acc. induction ms as [|[n v] ms IH]; intros acc Hnd; simpl; [done|].
  by apply IH, set_member_NoDup.
Qed.

Lemma fold_members_fresh (ms acc : list (string * json)) :
  NoDup (acc.*1 ++ ms.*1) → fold_left add_member ms acc = acc ++ ms.
Proof.
  revert acc. induction ms as [|[n v] ms IH]; intros acc Hnd; simpl.
  - by rewrite app_nil_r.
  - simpl in Hnd. rewrite set_member_fresh.
    + rewrite IH; [by rewrite <- app_assoc|].
      rewrite fmap_app. simpl. by rewrite <- app_assoc.
    + apply NoDup_app in Hnd as (_ & Hd & _). intros Hin.
      apply (Hd n Hin). by left.
Qed.

Lemma object_of_names (ms : list (string * json)) (s : string) :
  s ∈ (object_of ms).*1 ↔ s ∈ ms.*1.
Proof.
  unfold object_of. rewrite fold_members_names. simpl.
  rewrite elem_of_nil. tauto.
Qed.

Lemma object_of_NoDup (ms : list (string * json)) : NoDup (object_of ms).*1.
Proof. apply fold_members_NoDup. simpl. apply NoDup_nil_2. Qed.

Lemma object_of_id (ms : list (string * json)) :
  NoDup ms.*1 → object_of ms = ms.
Proof. intros Hnd. unfold object_of. by rewrite fold_members_fresh. Qed.

Lemma find_member_is_Some (ms : list (string * json)) (s : string) :
  is_Some (List.find (λ kv : string * json, bool_decide (kv.1 = s)) ms)
  ↔ s ∈ ms.*1.
Proof.
  induction ms as [|[n v] ms IH]; simpl.
  - rewrite elem_of_nil. split; [by intros [? ?]|done].
  - rewrite elem_of_cons. case_bool_decide as Hn.
    + subst n. split; eauto.
    + rewrite IH. split; [tauto|]. intros [->|H]; done.
Qed.

Lemma contains_object (ms : list (string * json)) (s : string) :
  contains (JObject ms) s
  = bool_decide (is_Some (getitem (JObject ms) s)).
Proof.
  simpl. apply bool_decide_ext.
  rewrite fmap_is_Some, find_member_is_Some, object_of_names. done.
Qed.

Lemma getitem_contains (x : json) (s : string) (v : json) :
  getitem x s = Some v → contains x s = true.
Proof.
  destruct x as [|b|n|t|l|ms]; try done.
  intros H. rewrite contains_object, H. apply bool_decide_eq_true_2. eauto.
Qed.

(** *** Python dictionaries *)

Lemma key_eqb_refl (k : key) : key_eqb k k = true.
Proof.
  destruct k as [|b|n|s]; simpl; try done; by rewrite bool_decide_eq_true_2.
Qed.

Lemma key_eqb_sym (a b : key) : key_eqb a b = key_eqb b a.
Proof.
  destruct a as [|x|m|s], b as [|y|n|t]; simpl; try done;
    apply bool_decide_ext; split; congruence.
Qed.

Lemma key_eqb_trans (a b c : key) :
  key_eqb a b = true → key_eqb b c = key_eqb a c.
Proof.
  destruct a as [|x|m|s], b as [|y|n|t]; simpl; try done;
    rewrite bool_decide_eq_true; intros H;
    destruct c as [|z|o|u]; simpl; try done;
    apply bool_decide_ext; split; congruence.
Qed.

Lemma key_eqb_str (k : key) (s : string) :
  key_eqb k (KStr s) = true ↔ k = KStr s.
Proof.
  destruct k as [|b|n|t]; simpl; try (split; [done|discriminate]).
  rewrite bool_decide_eq_true. split; congruence.
Qed.

Lemma get_cons (kv : key * json) (d : dict) (k : key) :
  get (kv :: d) k = if key_eqb kv.1 k then Some kv.2 else get d k.
Proof. unfold get. simpl. by destruct (key_eqb kv.1 k). Qed.

Lemma get_setitem (k : key) (v : json) (d : dict) (k' : key) :
  get (setitem k v d) k' = if key_eqb k k' then Some v else get d k'.
Proof.
  induction d as [|[k0 v0] d IH]; simpl.
  - by rewrite get_cons.
  - destruct (key_eqb k0 k) eqn:H0; rewrite !get_cons; simpl.
    + rewrite <- (key_eqb_trans _ _ k' H0).
      by destruct (key_eqb k k').
    + rewrite IH. destruct (key_eqb k0 k') eqn:H1; [|done].
      destruct (key_eqb k k') eqn:H2; [|done].
      rewrite key_eqb_sym in H2. rewrite (key_eqb_trans _ _ k H1) in H2.
      congruence.
Qed.

Lemma get_None_str (d : dict) (s : string) :
  get d (KStr s) = None ↔ KStr s ∉ d.*1.
Proof.
  induction d as [|[k v] d IH]; simpl.
  - split; [intros _; apply not_elem_of_nil | done].
  - rewrite get_cons, not_elem_of_cons. simpl.
    destruct (key_eqb k (KStr s)) eqn:Hk.
    + apply key_eqb_str in Hk. subst k. split; [done|]. by intros [? _].
    + rewrite IH. split; [|tauto]. intros H. split; [|done].
      intros <-. by rewrite key_eqb_refl in Hk.
Qed.

Lemma get_is_Some_str (d : dict) (s : string) :
  is_Some (get d (KStr s)) ↔ KStr s ∈ d.*1.
Proof.
  rewrite <- not_eq_None_Some, get_None_str.
  destruct (decide (KStr s ∈ d.*1)); tauto.
Qed.

Lemma setitem_distinct (k : key) (v : json) (d : dict) :
  distinct d → distinct (setitem k v d).
Proof.
  induction d as [|[k0 v0] d IH]; simpl.
  - done.
  - intros [Hk0 Hd]. destruct (key_eqb k0 k) eqn:H0; simpl.
    + done.
    + split; [|by apply IH]. rewrite get_setitem.
      by rewrite key_eqb_sym, H0.
Qed.

Lemma setitem_others (s : string) (v : json) (d : dict) :
  others (setitem (KStr s) v d) = others d.
Proof.
  unfold others. induction d as [|[k0 v0] d IH]; simpl; [done|].
  destruct (key_eqb k0 (KStr s)) eqn:H0; simpl.
  - apply key_eqb_str in H0. by subst k0.
  - by rewrite IH.
Qed.

Lemma setitem_names (s : string) (v : json) (d : dict) (n : string) :
  n ∈ map (λ kv : key * json, name kv.1) (setitem (KStr s) v d)
  ↔ n = s ∨ n ∈ map (λ kv : key * json, name kv.1) d.
Proof.
  induction d as [|[k0 v0] d IH]; simpl.
  - rewrite list_elem_of_singleton, elem_of_nil. tauto.
  - destruct (key_eqb k0 (KStr s)) eqn:H0; simpl; rewrite !elem_of_cons.
    + apply key_eqb_str in H0. subst k0. simpl. tauto.
    + rewrite IH. tauto.
Qed.

Lemma update_from_seq_distinct (items : list json) (d d' : dict) :
  distinct d → update_from_seq items d = Py.Ok d' → distinct d'.
Proof.
  revert d. induction items as [|item items IH]; simpl; intros d Hd.
  - by intros [= <-].
  - destruct (pair_of item) as [[k v]|e]; [|done].
    apply IH. by apply setitem_distinct.
Qed.

Lemma copy_get (ms : list (string * json)) (s : string) :
  get (map (λ kv : string * json, (KStr kv.1, kv.2)) ms) (KStr s)
  = snd <$> List.find (λ kv : string * json, bool_decide (kv.1 = s)) ms.
Proof.
  induction ms as [|[n v] ms IH]; simpl; [done|].
  rewrite get_cons. simpl. by case_bool_decide.
Qed.

Lemma copy_distinct (ms : list (string * json)) :
  NoDup ms.*1 →
  distinct (map (λ kv : string * json, (KStr kv.1, kv.2)) ms).
Proof.
  induction ms as [|[n v] ms IH]; simpl; [done|].
  intros [Hn Hnd]%NoDup_cons. split; [|by apply IH].
  rewrite copy_get. apply eq_None_not_Some.
  rewrite fmap_is_Some, find_member_is_Some. done.
Qed.

Lemma copy_others (ms : list (string * json)) :
  others (map (λ kv : string * json, (KStr kv.1, kv.2)) ms) = [].
Proof. unfold others. by induction ms as [|[n v] ms IH]. Qed.

Lemma of_json_distinct (x : json) (d : dict) :
  of_json x = Py.Ok d → distinct d.
Proof.
  destruct x as [|b|n|s|l|ms]; simpl; try done.
  - by apply update_from_seq_distinct.
  - by apply update_from_seq_distinct.
  - intros [= <-]. apply copy_distinct, object_of_NoDup.
Qed.

(** The items of a copied dict are the items of the object. *)
Lemma of_json_object (ms : list (string * json)) :
  of_json (JObject ms)
  = Py.Ok (map (λ kv : string * json, (KStr kv.1, kv.2)) (object_of ms)).
Proof. reflexivity. Qed.

Lemma of_json_object_get (ms : list (string * json)) (d : dict)
    (s : string) :
  of_json (JObject ms) = Py.Ok d → get d (KStr s) = getitem (JObject ms) s.
Proof. simpl. intros [= <-]. apply copy_get. Qed.

Lemma others_nil_names (d : dict) :
  others d = [] →
  map (λ kv : key * json, (KStr (name kv.1), kv.2)) d = d.
Proof.
  unfold others. induction d as [|[k v] d IH]; simpl; [done|].
  destruct k as [| | |s]; simpl; try done. intros H. by rewrite IH.
Qed.

Lemma others_nil_NoDup (d : dict) :
  others d = [] → distinct d →
  NoDup (map (λ kv : key * json, name kv.1) d).
Proof.
  unfold others. induction d as [|[k v] d IH]; simpl.
  - intros _ _. apply NoDup_nil_2.
  - destruct k as [| | |s]; simpl; try done.
    intros Ho [Hs Hd]. apply NoDup_cons. split; [|by apply IH].
    apply get_None_str in Hs. intros Hin. apply Hs.
    apply list_elem_of_fmap in Hin as ([k' v'] & Hk' & Hin). simpl in *.
    apply list_elem_of_fmap. exists (k', v'). split; [|done]. simpl.
    assert (Hstr : ∃ t, k' = KStr t).
    { clear -Ho Hin. induction d as [|[k0 v0] d IH]; simpl in *.
      - by apply elem_of_nil in Hin.
      - destruct k0 as [| | |t]; simpl in *; try done.
        apply elem_of_cons in Hin as [[= -> ->]|Hin]; eauto. }
    destruct Hstr as [t ->]. simpl in Hk'. by subst t.
Qed.

(** What [save_last_seen] writes of a dict with string keys only,
    [dict(load_last_seen(...))] gives back. *)
Lemma of_json_as_loaded (d : dict) :
  others d = [] → distinct d → of_json (as_loaded d) = Py.Ok d.
Proof.
  intros Ho Hd. unfold as_loaded. rewrite of_json_object.
  rewrite object_of_id.
  - rewrite map_map. simpl. by rewrite others_nil_names.
  - change (NoDup (fst <$> ((λ kv : key * json, (name kv.1, kv.2)) <$> d))).
    rewrite <- list_fmap_compose. by apply others_nil_NoDup.
Qed.

Section Properties.

Variable dateparser_parse : string → option datetime.
Variable feedparser_parse : string → list RawEntry.

#[local] Abbreviation parse_entry_date :=
  (Feed.parse_entry_date dateparser_parse).
#[local] Abbreviation is_new := (Feed.is_new dateparser_parse).
#[local] Abbreviation classify_entries :=
  (Feed.classify_entries dateparser_parse).
#[local] Abbreviation loop_body := (Feed.loop_body dateparser_parse).
#[local] Abbreviation process_feed :=
  (Feed.process_feed dateparser_parse feedparser_parse).
#[local] Abbreviation main := (Feed.main dateparser_parse feedparser_parse).

Lemma try_structured_spec (v : option struct_time) :
  try_structured v = structured_utc v.
Proof. by destruct v. Qed.

Lemma try_string_spec (v : option string) :
  try_string dateparser_parse v = string_utc dateparser_parse v.
Proof.
  destruct v as [[|a s]|]; simpl; try done.
  destruct (dateparser_parse (String a s)) as [dt|]; [|done].
  unfold normalize_utc, astimezone_utc, is_naive, replace_tzinfo_utc.
  destruct (utcoffset dt) as [off|] eqn:Hoff; simpl.
  - by rewrite Hoff.
  - change (0 * US_PER_SECOND) with 0. by rewrite Z.sub_0_r.
Qed.

Lemma structured_utc_offset (v : option struct_time) (d : datetime) :
  structured_utc v = Some d → utcoffset d = UTC.
Proof.
  destruct v as [t|]; simpl; [|done]. unfold of_civil.
  case_match; [|done]. by intros [= <-].
Qed.

Lemma normalize_utc_offset (dt d : datetime) :
  normalize_utc dt = Some d → utcoffset d = UTC.
Proof. unfold normalize_utc. case_match; [|done]. by intros [= <-]. Qed.

Lemma string_utc_offset (v : option string) (d : datetime) :
  string_utc dateparser_parse v = Some d → utcoffset d = UTC.
Proof.
  destruct v as [[|a s]|]; simpl; try done.
  destruct (dateparser_parse _); [|done]. apply normalize_utc_offset.
Qed.

Lemma parse_entry_date_attempts (e : RawEntry) :
  parse_entry_date e
  = Py.first_success (λ c : option datetime, c)
      (timestamp_attempts dateparser_parse e).
Proof.
  unfold Feed.parse_entry_date, timestamp_attempts. simpl.
  rewrite (try_structured_spec (published_parsed e)),
    (try_structured_spec (updated_parsed e)), !try_string_spec.
  destruct (structured_utc (published_parsed e)); [done|].
  by destruct (structured_utc (updated_parsed e)).
Qed.

Lemma parse_entry_date_utc (e : RawEntry) (d : datetime) :
  parse_entry_date e = Some d → utcoffset d = UTC.
Proof.
  rewrite parse_entry_date_attempts. unfold timestamp_attempts. simpl.
  repeat (case_match; try done); intros [= <-];
    eauto using structured_utc_offset, string_utc_offset.
Qed.

(** C4: [parse_entry_date] resolves the timestamp by strict precedence, the
    first success winning: the structured published time, the structured
    updated time, then the strings published, updated, pubDate and date read
    by the lenient parser. A structured time becomes the UTC datetime whose
    civil fields are its year, month, day, hour, minute and second; a parsed
    string without a zone keeps its civil fields and is taken as UTC, one
    with a zone keeps its instant; every result carries the UTC offset; and
    when no candidate succeeds the result is [None]. *)
Theorem parse_entry_date_precedence (e : RawEntry) :
  first_success_is (timestamp_attempts dateparser_parse e)
                   (parse_entry_date e)
  ∧ (∀ d, parse_entry_date e = Some d → utcoffset d = UTC)
  ∧ (∀ t d, try_structured (Some t) = Some d →
       utcoffset d = UTC
       ∧ to_civil d = mk_civil (tm_year t) (tm_mon t) (tm_mday t)
                               (tm_hour t) (tm_min t) (tm_sec t) 0)
  ∧ (∀ t d, published_parsed e = Some t → try_structured (Some t) = Some d →
       parse_entry_date e = Some d)
  ∧ (∀ s dt d, dateparser_parse s = Some dt →
       try_string dateparser_parse (Some s) = Some d →
       instant d = instant dt
       ∧ (utcoffset dt = None → to_civil d = to_civil dt))
  ∧ (Forall (λ c, c = None) (timestamp_attempts dateparser_parse e) →
     parse_entry_date e = None).
Proof.
  split; [|split; [|split; [|split; [|split]]]].
  - rewrite parse_entry_date_attempts.
    rewrite <- (map_id (timestamp_attempts dateparser_parse e)) at 1.
    apply first_success_spec.
  - apply parse_entry_date_utc.
  - intros t d Hd. simpl in Hd. unfold datetime_of_struct in Hd.
    apply to_civil_of_civil in Hd as [Hc Hu]. done.
  - intros t d Ht Hd. unfold Feed.parse_entry_date. simpl.
    by rewrite Ht, Hd.
  - intros s dt d Hs. rewrite try_string_spec.
    destruct s as [|a s]; simpl; [done|]. rewrite Hs.
    unfold normalize_utc, instant. case_match; [|done]. intros [= <-]. simpl.
    destruct (utcoffset dt); simpl; split; (done || lia).
  - rewrite parse_entry_date_attempts. unfold timestamp_attempts.
    intros H. repeat (apply Forall_cons in H as [-> H]). done.
Qed.

(** *** Novelty classifier *)

Lemma stored_datetime_unfold (s : string) :
  stored_datetime dateparser_parse s
  = match dateparser_parse s with
    | Some dt => Some (if is_naive dt then replace_tzinfo_utc dt else dt)
    | None => None
    end.
Proof. reflexivity. Qed.

Lemma is_new_unseen (last_seen : json) (cutoff : datetime)
    (eid : string) (edate : option datetime) :
  in_seen last_seen eid = false →
  is_new last_seen cutoff eid edate
  = match edate with
    | Some d => ge d cutoff
    | None => true
    end.
Proof.
  unfold in_seen. intros H. unfold Feed.is_new. rewrite H. simpl.
  destruct edate as [d|]; [|done]. by destruct (ge d cutoff).
Qed.

Lemma is_new_seen (last_seen : json) (cutoff : datetime)
    (eid : string) (edate : option datetime) :
  in_seen last_seen eid = true →
  is_new last_seen cutoff eid edate
  = match stored_stamp last_seen eid ≫= stored_datetime dateparser_parse,
          edate with
    | Some sd, Some d => gt d sd && ge d cutoff
    | _, _ => false
    end.
Proof.
  unfold in_seen. intros H.
  unfold Feed.is_new, stored_stamp, stored_datetime, parse_stored.
  rewrite H. simpl.
  destruct (getitem last_seen eid) as [[|b|n|s|l|ms]|]; simpl; try done.
  destruct (dateparser_parse s) as [sd|]; [|done]. simpl.
  destruct edate as [d|]; [|done].
  by destruct (gt d _), (ge d cutoff).
Qed.

Lemma window_cutoff (now d : datetime) :
  ge d (sub now DELTA) = true ↔ instant now - 86400000000 ≤ instant d.
Proof. rewrite ge_spec, instant_sub, DELTA_microseconds. done. Qed.

Lemma is_new_table (last_seen : json) (now : datetime) (eid : string)
    (edate : option datetime) :
  is_new last_seen (sub now DELTA) eid edate
  = decision_table (in_seen last_seen eid)
      (stored_parseable dateparser_parse last_seen eid)
      (ts_present edate) (within_window now edate)
      (after_stored dateparser_parse last_seen eid edate).
Proof.
  pose proof (window_cutoff now) as Hcut.
  unfold stored_parseable, ts_present, within_window, after_stored.
  destruct (in_seen last_seen eid) eqn:Hseen.
  - rewrite (is_new_seen _ _ _ _ Hseen).
    destruct (stored_stamp last_seen eid ≫= stored_datetime dateparser_parse)
      as [sd|]; destruct edate as [d|]; simpl; try done.
    destruct (gt d sd) eqn:Hgt, (ge d (sub now DELTA)) eqn:Hge; simpl.
    + apply gt_spec in Hgt. apply Hcut in Hge.
      rewrite !bool_decide_eq_true_2 by (done || lia). done.
    + apply gt_spec in Hgt.
      rewrite (bool_decide_eq_false_2 (_ ≤ _)); [done|].
      intros Hle. apply Hcut in Hle. congruence.
    + rewrite (bool_decide_eq_false_2 (_ < _)).
      { by destruct (bool_decide (_ ≤ _)). }
      intros Hlt. apply gt_spec in Hlt. congruence.
    + rewrite (bool_decide_eq_false_2 (_ ≤ _)); [done|].
      intros Hle. apply Hcut in Hle. congruence.
  - rewrite (is_new_unseen _ _ _ _ Hseen). simpl.
    destruct edate as [d|]; simpl; [|done].
    destruct (ge d (sub now DELTA)) eqn:Hge.
    + apply Hcut in Hge. by rewrite bool_decide_eq_true_2.
    + rewrite bool_decide_eq_false_2; [done|].
      intros Hle. apply Hcut in Hle. congruence.
Qed.

(** C1: the classification of one entry in [process_feed] is the decision
    table of the specification. An unseen identity is new without a
    timestamp, new with a timestamp at or after [now - 24h] (the boundary
    instant included) and not new before it; a seen identity is new exactly
    when the entry has a timestamp strictly after the parsed stored one and at
    or after [now - 24h], and not new otherwise, in particular when the
    stored stamp cannot be parsed or is no string at all. In a seen record
    that is a mapping, the identity is seen exactly when it is a key. *)
Theorem is_new_decision_table (last_seen : json)
    (now : datetime) (eid : string) (edate : option datetime) :
  is_new last_seen (sub now DELTA) eid edate
  = decision_table (in_seen last_seen eid)
      (stored_parseable dateparser_parse last_seen eid)
      (ts_present edate) (within_window now edate)
      (after_stored dateparser_parse last_seen eid edate)
  ∧ (in_seen last_seen eid = false → edate = None →
     is_new last_seen (sub now DELTA) eid edate = true)
  ∧ (∀ d, in_seen last_seen eid = false → edate = Some d →
       (is_new last_seen (sub now DELTA) eid edate = true
        ↔ instant now - 86400000000 ≤ instant d))
  ∧ (∀ stored_iso, getitem last_seen eid = Some (JString stored_iso) →
       (is_new last_seen (sub now DELTA) eid edate = true
        ↔ ∃ d sd, edate = Some d
                  ∧ stored_datetime dateparser_parse stored_iso = Some sd
                  ∧ instant sd < instant d
                  ∧ instant now - 86400000000 ≤ instant d))
  ∧ (∀ stored_iso, getitem last_seen eid = Some (JString stored_iso) →
       dateparser_parse stored_iso = None →
       is_new last_seen (sub now DELTA) eid edate = false)
  ∧ (in_seen last_seen eid = true →
     (∀ stored_iso, getitem last_seen eid ≠ Some (JString stored_iso)) →
     is_new last_seen (sub now DELTA) eid edate = false)
  ∧ (∀ ms, in_seen (JObject ms) eid = true ↔ eid ∈ ms.*1)
  ∧ (∀ ms, in_seen (JObject ms) eid = true
           ↔ is_Some (getitem (JObject ms) eid)).
Proof.
  pose proof (window_cutoff now) as Hcut.
  assert (Hstamp : ∀ s, getitem last_seen eid = Some (JString s) →
                        stored_stamp last_seen eid = Some s).
  { intros s Hs. unfold stored_stamp. by rewrite Hs. }
  split; [|split; [|split; [|split; [|split; [|split; [|split]]]]]].
  - apply is_new_table.
  - intros Hseen ->. by rewrite (is_new_unseen _ _ _ _ Hseen).
  - intros d Hseen ->. rewrite (is_new_unseen _ _ _ _ Hseen). apply Hcut.
  - intros stored_iso Hget.
    pose proof (getitem_contains _ _ _ Hget) as Hseen.
    rewrite (is_new_seen _ _ _ _ Hseen).
    rewrite (Hstamp _ Hget). simpl. split.
    + destruct (stored_datetime dateparser_parse stored_iso) as [sd|];
        [|done].
      destruct edate as [d|]; [|done].
      intros [Hgt Hge]%andb_true_iff. exists d, sd.
      apply gt_spec in Hgt. apply Hcut in Hge. done.
    + intros (d & sd & -> & -> & Hlt & Hle).
      apply andb_true_iff. split; [by apply gt_spec | by apply Hcut].
  - intros stored_iso Hget Hparse.
    pose proof (getitem_contains _ _ _ Hget) as Hseen.
    rewrite (is_new_seen _ _ _ _ Hseen), (Hstamp _ Hget). simpl.
    unfold stored_datetime. by rewrite Hparse.
  - intros Hseen Hnone. rewrite (is_new_seen _ _ _ _ Hseen).
    unfold stored_stamp.
    destruct (getitem last_seen eid) as [[|b|n|s|l|ms]|]; simpl; try done.
    by destruct (Hnone s).
  - intros ms. unfold in_seen. simpl. apply bool_decide_eq_true.
  - intros ms. unfold in_seen. rewrite contains_object.
    apply bool_decide_eq_true.
Qed.

(** *** The loop of [process_feed] *)

#[local] Abbreviation entry_is_new := (Spec.entry_is_new dateparser_parse).
#[local] Abbreviation entry_item := (Spec.entry_item dateparser_parse).
#[local] Abbreviation entry_stamp := (Spec.entry_stamp dateparser_parse).
#[local] Abbreviation novel_entries := (Spec.novel_entries dateparser_parse).
#[local] Abbreviation record_stamps := (Spec.record_stamps dateparser_parse).
#[local] Abbreviation has_own_stamp := (Spec.has_own_stamp dateparser_parse).

Lemma loop_fold (now : datetime) (last_seen : json)
    (entries : list RawEntry) (items : list item) (d : dict) :
  fold_left (loop_body now (sub now DELTA) last_seen) entries (items, d)
  = (items ++ map (entry_item now) (novel_entries now last_seen entries),
     record_stamps now entries d).
Proof.
  revert items d. induction entries as [|e entries IH]; intros items d.
  - simpl. by rewrite app_nil_r.
  - simpl. rewrite IH. unfold Spec.novel_entries. simpl.
    fold (entry_is_new now last_seen e).
    destruct (entry_is_new now last_seen e); simpl.
    + by rewrite <- app_assoc.
    + done.
Qed.

Lemma classify_entries_spec (now : datetime) (last_seen : json) (d : dict)
    (entries : list RawEntry) :
  classify_entries now last_seen d entries
  = (map (entry_item now) (novel_entries now last_seen entries),
     record_stamps now entries d).
Proof. unfold Feed.classify_entries. by rewrite loop_fold. Qed.

Lemma record_stamps_app (now : datetime) (l1 l2 : list RawEntry) (d : dict) :
  record_stamps now (l1 ++ l2) d
  = record_stamps now l2 (record_stamps now l1 d).
Proof. unfold Spec.record_stamps. by rewrite fold_left_app. Qed.

Lemma record_stamps_cons (now : datetime) (e : RawEntry)
    (entries : list RawEntry) (d : dict) :
  record_stamps now (e :: entries) d
  = record_stamps now entries
      (setitem (KStr (parse_entry_id e)) (JString (entry_stamp now e)) d).
Proof. reflexivity. Qed.

Lemma record_stamps_get_other (now : datetime) (entries : list RawEntry)
    (d : dict) (k : key) :
  (∀ e, e ∈ entries → k ≠ KStr (parse_entry_id e)) →
  get (record_stamps now entries d) k = get d k.
Proof.
  revert d. induction entries as [|e entries IH]; intros d Hk; [done|].
  rewrite record_stamps_cons, IH.
  - rewrite get_setitem. destruct (key_eqb _ k) eqn:Heq; [|done].
    rewrite key_eqb_sym in Heq. apply key_eqb_str in Heq.
    destruct (Hk e); [by left | done].
  - intros e' He'. apply Hk. by right.
Qed.

Lemma record_stamps_get_unlisted (now : datetime) (entries : list RawEntry)
    (d : dict) (s : string) :
  s ∉ map parse_entry_id entries →
  get (record_stamps now entries d) (KStr s) = get d (KStr s).
Proof.
  intros Hs. apply record_stamps_get_other. intros e He [= ->].
  apply Hs, list_elem_of_fmap. eauto.
Qed.

Lemma record_stamps_get_last (now : datetime) (l1 l2 : list RawEntry)
    (e : RawEntry) (d : dict) :
  parse_entry_id e ∉ map parse_entry_id l2 →
  get (record_stamps now (l1 ++ e :: l2) d) (KStr (parse_entry_id e))
  = Some (JString (entry_stamp now e)).
Proof.
  intros Hk. rewrite record_stamps_app, record_stamps_cons.
  rewrite record_stamps_get_unlisted by done.
  by rewrite get_setitem, key_eqb_refl.
Qed.

Lemma last_occurrence (entries : list RawEntry) (k : string) :
  k ∈ map parse_entry_id entries →
  ∃ l1 e l2, entries = l1 ++ e :: l2 ∧ parse_entry_id e = k
             ∧ k ∉ map parse_entry_id l2.
Proof.
  induction entries as [|e entries IH]; simpl; intros Hk.
  - by apply elem_of_nil in Hk.
  - destruct (decide (k ∈ map parse_entry_id entries)) as [Hin|Hnin].
    + destruct (IH Hin) as (l1 & e' & l2 & -> & He' & Hl2).
      by exists (e :: l1), e', l2.
    + apply elem_of_cons in Hk as [Hk|Hk]; [|done].
      by exists [], e, entries.
Qed.

Lemma record_stamps_get_listed (now : datetime) (entries : list RawEntry)
    (d : dict) (s : string) :
  s ∈ map parse_entry_id entries →
  ∃ e, e ∈ entries ∧ parse_entry_id e = s
       ∧ get (record_stamps now entries d) (KStr s)
         = Some (JString (entry_stamp now e)).
Proof.
  intros Hin.
  destruct (last_occurrence _ _ Hin) as (l1 & e & l2 & -> & <- & Hl2).
  exists e. split; [|split; [done|by apply record_stamps_get_last]].
  apply elem_of_app. right. by left.
Qed.

Lemma record_stamps_get_is_Some (now : datetime)
    (entries : list RawEntry) (d : dict) (k : key) :
  is_Some (get d k) → is_Some (get (record_stamps now entries d) k).
Proof.
  revert d. induction entries as [|e entries IH]; intros d Hk; [done|].
  rewrite record_stamps_cons. apply IH. rewrite get_setitem.
  by destruct (key_eqb _ k).
Qed.

Lemma record_stamps_others (now : datetime) (entries : list RawEntry)
    (d : dict) :
  others (record_stamps now entries d) = others d.
Proof.
  revert d. induction entries as [|e entries IH]; intros d; [done|].
  by rewrite record_stamps_cons, IH, setitem_others.
Qed.

Lemma record_stamps_distinct (now : datetime) (entries : list RawEntry)
    (d : dict) :
  distinct d → distinct (record_stamps now entries d).
Proof.
  revert d. induction entries as [|e entries IH]; intros d Hd; [done|].
  rewrite record_stamps_cons. by apply IH, setitem_distinct.
Qed.

Lemma record_stamps_names (now : datetime) (entries : list RawEntry)
    (d : dict) (n : string) :
  n ∈ map (λ kv : key * json, name kv.1) (record_stamps now entries d)
  ↔ n ∈ map parse_entry_id entries
    ∨ n ∈ map (λ kv : key * json, name kv.1) d.
Proof.
  revert d. induction entries as [|e entries IH]; intros d.
  - simpl. rewrite elem_of_nil. tauto.
  - rewrite record_stamps_cons, IH, setitem_names. simpl.
    rewrite elem_of_cons. tauto.
Qed.

Lemma NoDup_split_last (l1 l2 : list RawEntry) (e : RawEntry) :
  NoDup (map parse_entry_id (l1 ++ e :: l2)) →
  parse_entry_id e ∉ map parse_entry_id l2.
Proof.
  rewrite map_app. simpl. intros [_ [_ H]]%NoDup_app.
  by apply NoDup_cons in H as [H _].
Qed.

(** *** Files *)

Lemma load_last_seen_cases (path : string) (w : Env.world) :
  load_last_seen path w
  = match Env.files w !! path with
    | Some {| Env.readable := true; Env.content := Env.JsonText v |} => v
    | _ => JObject []
    end.
Proof.
  unfold load_last_seen, Env.exists_, Env.open_read.
  destruct (Env.files w !! path) as [[[] c]|] eqn:Hf; simpl.
  - by destruct c.
  - done.
  - done.
Qed.

Lemma load_last_seen_ext (path : string) (w1 w2 : Env.world) :
  Env.files w1 !! path = Env.files w2 !! path →
  load_last_seen path w1 = load_last_seen path w2.
Proof. intros H. by rewrite !load_last_seen_cases, H. Qed.


Lemma content_at_open_write (path p : string) (c : Env.file_content)
    (w : Env.world) :
  content_at p (Env.open_write path c w)
  = if decide (path = p) then Some c else content_at p w.
Proof.
  unfold content_at, Env.open_write, Env.set_files. simpl.
  rewrite lookup_insert. by case_decide.
Qed.

Lemma load_last_seen_open_write_ne (path p : string) (c : Env.file_content)
    (w : Env.world) :
  path ≠ p →
  load_last_seen p (Env.open_write path c w) = load_last_seen p w.
Proof.
  intros Hne. apply load_last_seen_ext.
  unfold Env.open_write, Env.set_files. simpl. by rewrite lookup_insert_ne.
Qed.

Lemma OUTFILES_not_LAST_SEEN (k k' : feed_key) :
  OUTFILES k ≠ LAST_SEEN_FILES k'.
Proof. destruct k, k'; discriminate. Qed.

Lemma LAST_SEEN_FILES_inj (k k' : feed_key) :
  LAST_SEEN_FILES k = LAST_SEEN_FILES k' → k = k'.
Proof. destruct k, k'; (done || discriminate). Qed.

Lemma OUTFILES_inj (k k' : feed_key) : OUTFILES k = OUTFILES k' → k = k'.
Proof. destruct k, k'; (done || discriminate). Qed.

(** *** The feed processor, step by step *)

Lemma process_feed_failed (k : feed_key) (url : string) (w : Env.world) :
  safe_fetch url w = None → process_feed k url w = (Py.Ok false, w).
Proof. intros H. unfold Feed.process_feed. by rewrite H. Qed.

Lemma process_feed_raised (k : feed_key) (url raw : string) (w : Env.world)
    (e : Py.exception) :
  safe_fetch url w = Some raw →
  of_json (load_last_seen (LAST_SEEN_FILES k) w) = Py.Raise e →
  process_feed k url w = (Py.Raise e, (Env.datetime_now_utc w).2).
Proof.
  intros H Hd. unfold Feed.process_feed. rewrite H. simpl.
  rewrite (load_last_seen_ext _ _ w) by done. by rewrite Hd.
Qed.

Lemma process_feed_fetched (k : feed_key) (url raw : string) (w : Env.world)
    (d : dict) :
  safe_fetch url w = Some raw →
  of_json (load_last_seen (LAST_SEEN_FILES k) w) = Py.Ok d →
  let now := (Env.datetime_now_utc w).1 in
  let w1 := (Env.datetime_now_utc w).2 in
  let entries := feedparser_parse raw in
  let last_seen := load_last_seen (LAST_SEEN_FILES k) w in
  let document :=
    build_rss_xml ("daily_" +:+ key_name k) url
      (map (entry_item now) (novel_entries now last_seen entries)) w1 in
  process_feed k url w
  = (Py.Ok true,
     save_last_seen (LAST_SEEN_FILES k) (record_stamps now entries d)
       (Env.open_write (OUTFILES k) document.1 document.2)).
Proof.
  intros H Hd. simpl. unfold Feed.process_feed. rewrite H. simpl.
  rewrite (load_last_seen_ext _ _ w) by done. rewrite Hd.
  rewrite classify_entries_spec.
  by destruct (map _ (novel_entries _ _ _)).
Qed.

Lemma process_feed_result (k : feed_key) (url : string) (w : Env.world) :
  (process_feed k url w).1
  = match safe_fetch url w with
    | None => Py.Ok false
    | Some _ =>
        match of_json (load_last_seen (LAST_SEEN_FILES k) w) with
        | Py.Ok _ => Py.Ok true
        | Py.Raise e => Py.Raise e
        end
    end.
Proof.
  destruct (safe_fetch url w) as [raw|] eqn:H.
  - destruct (of_json (load_last_seen (LAST_SEEN_FILES k) w)) as [d|e] eqn:Hd.
    + by rewrite (process_feed_fetched _ _ _ _ _ H Hd).
    + by rewrite (process_feed_raised _ _ _ _ _ H Hd).
  - by rewrite (process_feed_failed _ _ _ H).
Qed.

Lemma process_feed_urlopen (k : feed_key) (url : string) (w : Env.world) :
  Env.urlopen (process_feed k url w).2 = Env.urlopen w.
Proof.
  destruct (safe_fetch url w) as [raw|] eqn:H.
  - destruct (of_json (load_last_seen (LAST_SEEN_FILES k) w)) as [d|e] eqn:Hd.
    + by rewrite (process_feed_fetched _ _ _ _ _ H Hd).
    + by rewrite (process_feed_raised _ _ _ _ _ H Hd).
  - by rewrite (process_feed_failed _ _ _ H).
Qed.

Lemma process_feed_state_file (k : feed_key) (url raw : string)
    (w : Env.world) (d : dict) :
  safe_fetch url w = Some raw →
  of_json (load_last_seen (LAST_SEEN_FILES k) w) = Py.Ok d →
  content_at (LAST_SEEN_FILES k) (process_feed k url w).2
  = Some (Env.json_dump
            (record_stamps (Env.datetime_now_utc w).1 (feedparser_parse raw)
               d)).
Proof.
  intros H Hd. rewrite (process_feed_fetched _ _ _ _ _ H Hd). simpl.
  unfold save_last_seen. rewrite content_at_open_write.
  by rewrite decide_True.
Qed.

(** *** Seen-state stamps *)

Lemma entry_stamp_cases (now : datetime) (e : RawEntry) :
  entry_stamp now e
  = match parse_entry_date e with
    | Some d => isoformat d
    | None =>
        if Py.truthy_opt (published e) then Py.get_default (published e)
        else if Py.truthy_opt (updated e) then Py.get_default (updated e)
             else isoformat now
    end.
Proof.
  unfold Spec.entry_stamp, stamp_of, Py.or_opt.
  destruct (parse_entry_date e); [done|].
  destruct (Py.truthy_opt (published e)) eqn:Hp; simpl.
  { by rewrite Hp. }
  by destruct (Py.truthy_opt (updated e)).
Qed.

Lemma as_loaded_getitem_is_Some (d : dict) (s : string) :
  is_Some (get d (KStr s)) → is_Some (getitem (as_loaded d) s).
Proof.
  intros H. unfold as_loaded. simpl.
  rewrite fmap_is_Some, find_member_is_Some, object_of_names.
  apply get_is_Some_str in H.
  apply list_elem_of_fmap in H as ([k v] & Hk & Hin). simpl in Hk. subst k.
  apply list_elem_of_fmap. exists (s, v). split; [done|].
  apply list_elem_of_fmap. by exists (KStr s, v).
Qed.

(** C2: every entry the loop processes, whatever its verdict, stores a stamp
    under its identity: the ISO form of its resolved timestamp, else its
    published string, else its updated string, else the ISO form of [now].
    Hence the mapping a successful run persists has a stamp for every
    identity observed: that of the last entry carrying it. *)
Theorem every_entry_stamped (now : datetime)
    (last_seen : json) (d0 : dict) (entries : list RawEntry) :
  (∀ acc e,
     get (loop_body now (sub now DELTA) last_seen acc e).2
         (KStr (parse_entry_id e))
     = Some (JString (entry_stamp now e)))
  ∧ (∀ e, entry_stamp now e
          = match parse_entry_date e with
            | Some d => isoformat d
            | None =>
                if Py.truthy_opt (published e)
                then Py.get_default (published e)
                else if Py.truthy_opt (updated e)
                     then Py.get_default (updated e)
                     else isoformat now
            end)
  ∧ Forall (λ e, ∃ e', e' ∈ entries
                       ∧ parse_entry_id e' = parse_entry_id e
                       ∧ get (classify_entries now last_seen d0 entries).2
                             (KStr (parse_entry_id e))
                         = Some (JString (entry_stamp now e'))) entries
  ∧ (NoDup (map parse_entry_id entries) →
     Forall (λ e, get (classify_entries now last_seen d0 entries).2
                      (KStr (parse_entry_id e))
                  = Some (JString (entry_stamp now e))) entries)
  ∧ (∀ k url raw w d, safe_fetch url w = Some raw →
       of_json (load_last_seen (LAST_SEEN_FILES k) w) = Py.Ok d →
       ∃ saved, (process_feed k url w).1 = Py.Ok true
            ∧ content_at (LAST_SEEN_FILES k) (process_feed k url w).2
              = Some (Env.json_dump saved)
            ∧ saved = (classify_entries (Env.datetime_now_utc w).1
                         (load_last_seen (LAST_SEEN_FILES k) w) d
                         (feedparser_parse raw)).2
            ∧ Forall (λ e, is_Some (get saved (KStr (parse_entry_id e)))
                           ∧ is_Some (getitem (as_loaded saved)
                                        (parse_entry_id e)))
                     (feedparser_parse raw)).
Proof.
  split; [|split; [|split; [|split]]].
  - intros [items d] e. simpl. by rewrite get_setitem, key_eqb_refl.
  - apply entry_stamp_cases.
  - rewrite classify_entries_spec. simpl. apply Forall_forall. intros e He.
    assert (Hin : parse_entry_id e ∈ map parse_entry_id entries).
    { apply list_elem_of_fmap. eauto. }
    destruct (record_stamps_get_listed now _ d0 _ Hin) as (e' & He' & Hid & Hg).
    by exists e'.
  - intros Hnd. rewrite classify_entries_spec. simpl.
    apply Forall_forall. intros e He.
    apply list_elem_of_split in He as (l1 & l2 & ->).
    apply record_stamps_get_last. by eapply NoDup_split_last.
  - intros k url raw w d Hfetch Hd. eexists.
    split; [|split; [|split; [reflexivity|]]].
    + by rewrite (process_feed_fetched _ _ _ _ _ Hfetch Hd).
    + rewrite (process_feed_state_file _ _ _ _ _ Hfetch Hd).
      by rewrite classify_entries_spec.
    + rewrite classify_entries_spec. simpl. apply Forall_forall. intros e He.
      assert (Hin : parse_entry_id e
                    ∈ map parse_entry_id (feedparser_parse raw)).
      { apply list_elem_of_fmap. eauto. }
      destruct (record_stamps_get_listed (Env.datetime_now_utc w).1 _ d _ Hin)
        as (e' & He' & Hid & Hg).
      assert (Hsome : is_Some (get (record_stamps (Env.datetime_now_utc w).1
                                      (feedparser_parse raw) d)
                                   (KStr (parse_entry_id e)))) by eauto.
      split; [exact Hsome|]. by apply as_loaded_getitem_is_Some.
Qed.

(** *** Output document *)

Lemma findall_item_elements (items : list item) :
  filter (λ c : Xml.element, Xml.tag c = "item"%string)
         (map item_element items)
  = map item_element items.
Proof.
  induction items as [|it items IH]; [done|].
  simpl. rewrite filter_cons_True by done. by rewrite IH.
Qed.

Lemma build_rss_xml_document (channel_title channel_link : string)
    (items : list item) (w : Env.world) :
  ∃ chan,
    (build_rss_xml channel_title channel_link items w).1
    = Env.XmlDocument
        (Xml.Element "rss" [("version", "2.0")]%string None [chan])
    ∧ Xml.tag chan = "channel"%string
    ∧ Xml.findtext "title" chan = Some channel_title
    ∧ Xml.findtext "link" chan = Some channel_link
    ∧ Xml.findtext "description" chan
      = Some ("Daily feed: " +:+ channel_title)
    ∧ Xml.findall "item" chan = map item_element items.
Proof.
  eexists. split; [reflexivity|]. split; [done|].
  unfold Xml.findtext, Xml.find, Xml.findall. simpl.
  do 3 (split; [done|]).
  rewrite !filter_cons_False by done.
  apply findall_item_elements.
Qed.

Lemma document_items_build (channel_title channel_link : string)
    (items : list item) (w : Env.world) :
  document_items (build_rss_xml channel_title channel_link items w).1
  = map item_element items.
Proof.
  destruct (build_rss_xml_document channel_title channel_link items w)
    as (chan & -> & Htag & _ & _ & _ & Hitems).
  unfold document_items, Xml.find, Xml.findall. simpl.
  by rewrite filter_cons_True.
Qed.

Lemma build_rss_xml_files (channel_title channel_link : string)
    (items : list item) (w : Env.world) :
  Env.files (build_rss_xml channel_title channel_link items w).2
  = Env.files w.
Proof. reflexivity. Qed.

Lemma process_feed_output_file (k : feed_key) (url raw : string)
    (w : Env.world) (d : dict) :
  safe_fetch url w = Some raw →
  of_json (load_last_seen (LAST_SEEN_FILES k) w) = Py.Ok d →
  content_at (OUTFILES k) (process_feed k url w).2
  = Some (build_rss_xml ("daily_" +:+ key_name k) url
            (map (entry_item (Env.datetime_now_utc w).1)
               (novel_entries (Env.datetime_now_utc w).1
                  (load_last_seen (LAST_SEEN_FILES k) w)
                  (feedparser_parse raw)))
            (Env.datetime_now_utc w).2).1.
Proof.
  intros H Hd. rewrite (process_feed_fetched _ _ _ _ _ H Hd). simpl.
  unfold save_last_seen. rewrite !content_at_open_write.
  rewrite decide_False by (intros Heq; by apply (OUTFILES_not_LAST_SEEN k k)).
  by rewrite decide_True.
Qed.

(** *** What a run leaves alone *)

Lemma process_feed_other_files (k : feed_key) (url p : string)
    (w : Env.world) :
  p ≠ OUTFILES k → p ≠ LAST_SEEN_FILES k →
  Env.files (process_feed k url w).2 !! p = Env.files w !! p.
Proof.
  intros Ho Hl. destruct (safe_fetch url w) as [raw|] eqn:H.
  - destruct (of_json (load_last_seen (LAST_SEEN_FILES k) w)) as [d|e] eqn:Hd.
    + rewrite (process_feed_fetched _ _ _ _ _ H Hd). simpl.
      by rewrite !lookup_insert_ne.
    + by rewrite (process_feed_raised _ _ _ _ _ H Hd).
  - by rewrite (process_feed_failed _ _ _ H).
Qed.

Lemma process_feed_raised_files (k : feed_key) (url : string)
    (w : Env.world) (e : Py.exception) :
  (process_feed k url w).1 = Py.Raise e →
  Env.files (process_feed k url w).2 = Env.files w.
Proof.
  destruct (safe_fetch url w) as [raw|] eqn:H.
  - destruct (of_json (load_last_seen (LAST_SEEN_FILES k) w)) as [d|e'] eqn:Hd.
    + by rewrite (process_feed_fetched _ _ _ _ _ H Hd).
    + by rewrite (process_feed_raised _ _ _ _ _ H Hd).
  - by rewrite (process_feed_failed _ _ _ H).
Qed.

Lemma load_last_seen_save (path : string) (d : dict) (w : Env.world) :
  load_last_seen path (save_last_seen path d w)
  = match Env.files w !! path with
    | Some f => if Env.readable f then as_loaded d else JObject []
    | None => as_loaded d
    end.
Proof.
  rewrite load_last_seen_cases. unfold save_last_seen, Env.open_write. simpl.
  rewrite lookup_insert_eq.
  destruct (Env.files w !! path) as [[[] c]|]; done.
Qed.

Lemma names_as_loaded (d : dict) (s : string) :
  s ∈ names (as_loaded d) ↔ s ∈ map (λ kv : key * json, name kv.1) d.
Proof.
  unfold as_loaded. simpl. rewrite elem_of_list_to_set.
  change (s ∈ fst <$> ((λ kv : key * json, (name kv.1, kv.2)) <$> d)
          ↔ s ∈ (λ kv : key * json, name kv.1) <$> d).
  by rewrite <- list_fmap_compose.
Qed.

Lemma names_of_json (x : json) (d : dict) (s : string) :
  of_json x = Py.Ok d → s ∈ names x →
  s ∈ map (λ kv : key * json, name kv.1) d.
Proof.
  destruct x as [|b|n|t|l|ms]; simpl;
    try (intros _ Hs; by apply elem_of_empty in Hs).
  intros [= <-]. rewrite elem_of_list_to_set. intros Hs.
  apply object_of_names in Hs.
  apply list_elem_of_fmap in Hs as ([n v] & -> & Hin).
  apply list_elem_of_fmap. exists (KStr n, v). split; [done|].
  apply list_elem_of_fmap. by exists (n, v).
Qed.

Lemma process_feed_persisted (k k' : feed_key) (url : string)
    (w : Env.world) :
  persisted_ids k' w ⊆ persisted_ids k' (process_feed k url w).2.
Proof.
  unfold persisted_ids. destruct (decide (k = k')) as [<-|Hne].
  - destruct (safe_fetch url w) as [raw|] eqn:H.
    + destruct (of_json (load_last_seen (LAST_SEEN_FILES k) w))
        as [d|e] eqn:Hd.
      * rewrite (process_feed_fetched _ _ _ _ _ H Hd). simpl.
        rewrite load_last_seen_save. simpl.
        rewrite lookup_insert_ne by apply OUTFILES_not_LAST_SEEN.
        assert (Hgrow : names (load_last_seen (LAST_SEEN_FILES k) w)
                        ⊆ names (as_loaded
                                   (record_stamps (Env.datetime_now_utc w).1
                                      (feedparser_parse raw) d))).
        { intros s Hs. apply names_as_loaded, record_stamps_names. right.
          by eapply names_of_json. }
        revert Hgrow. rewrite (load_last_seen_cases _ w).
        destruct (Env.files w !! LAST_SEEN_FILES k) as [[[] c]|]; simpl;
          try done; intros _; apply empty_subseteq.
      * rewrite (process_feed_raised _ _ _ _ _ H Hd). cbn [snd].
        by rewrite (load_last_seen_ext _ (Env.datetime_now_utc w).2 w).
    + by rewrite (process_feed_failed _ _ _ H).
  - rewrite (load_last_seen_ext _ (process_feed k url w).2 w); [done|].
    apply process_feed_other_files.
    + intros Heq. symmetry in Heq. by apply OUTFILES_not_LAST_SEEN in Heq.
    + intros Heq. apply LAST_SEEN_FILES_inj in Heq. congruence.
Qed.

(** *** Run driver *)

#[local] Abbreviation bd_url :=
  ("https://evilgodfahim.github.io/bd/articles.xml"%string).
#[local] Abbreviation master_url :=
  ("https://evilgodfahim.github.io/Longreads/filtered.xml"%string).

Lemma main_unfold (w : Env.world) :
  main w
  = let r1 := process_feed bd bd_url w in
    match r1.1 with
    | Py.Raise _ => (1, r1.2)
    | Py.Ok ok1 =>
        let r2 := process_feed master master_url r1.2 in
        match r2.1 with
        | Py.Raise _ => (1, r2.2)
        | Py.Ok ok2 => (if ok1 || ok2 then 0 else 1, r2.2)
        end
    end.
Proof.
  unfold Feed.main, run_feeds, FEEDS. simpl.
  destruct (process_feed bd _ w) as [[ok1|e1] w1]; simpl; [|done].
  destruct (process_feed master _ w1) as [[ok2|e2] w2]; simpl; [|done].
  by destruct ok1, ok2.
Qed.

Lemma main_persisted (k : feed_key) (w : Env.world) :
  persisted_ids k w ⊆ persisted_ids k (main w).2.
Proof.
  rewrite main_unfold. cbv zeta.
  pose proof (process_feed_persisted bd k bd_url w) as H1.
  pose proof (process_feed_persisted master k master_url
                (process_feed bd bd_url w).2) as H2.
  destruct ((process_feed bd bd_url w).1) as [ok1|e1]; [|done].
  destruct ((process_feed master master_url _).1) as [ok2|e2]; simpl;
    by etrans.
Qed.

Lemma process_feed_safe_fetch (k : feed_key) (url url' : string)
    (w : Env.world) :
  safe_fetch url' (process_feed k url w).2 = safe_fetch url' w.
Proof. unfold safe_fetch. by rewrite process_feed_urlopen. Qed.


Lemma elem_of_FEEDS (feed : feed_key * string) :
  feed ∈ FEEDS ↔ feed = (bd, bd_url) ∨ feed = (master, master_url).
Proof.
  unfold FEEDS. by rewrite elem_of_cons, list_elem_of_singleton.
Qed.

Lemma process_feed_load_other (k k' : feed_key) (url : string)
    (w : Env.world) :
  k' ≠ k →
  load_last_seen (LAST_SEEN_FILES k') (process_feed k url w).2
  = load_last_seen (LAST_SEEN_FILES k') w.
Proof.
  intros Hne. apply load_last_seen_ext, process_feed_other_files.
  - intros Heq. symmetry in Heq. by apply OUTFILES_not_LAST_SEEN in Heq.
  - intros Heq. apply LAST_SEEN_FILES_inj in Heq. congruence.
Qed.

(** *** Seen-state store *)

Lemma next_run_persisted (k : feed_key) (w : Env.world)
    (net : string → option string) :
  persisted_ids k w
  ⊆ persisted_ids k (next_run dateparser_parse feedparser_parse w net).
Proof.
  unfold next_run. etrans; [|apply main_persisted].
  unfold persisted_ids.
  match goal with
  | |- _ ⊆ names (load_last_seen ?p ?w') =>
      by rewrite (load_last_seen_ext p w' w)
  end.
Qed.

(** C10: the seen record only grows. The mapping the loop builds keeps every
    key of the mapping it started from; the mapping a successful
    [process_feed] saves therefore contains every key it loaded; and over any
    sequence of runs of the job the identities persisted for a feed never
    shrink. *)
Theorem seen_state_only_grows :
  (∀ now last_seen d0 entries k,
     is_Some (get d0 k) →
     is_Some (get (classify_entries now last_seen d0 entries).2 k))
  ∧ (∀ k url raw w d0, safe_fetch url w = Some raw →
       of_json (load_last_seen (LAST_SEEN_FILES k) w) = Py.Ok d0 →
       ∃ saved, content_at (LAST_SEEN_FILES k) (process_feed k url w).2
                = Some (Env.json_dump saved)
                ∧ (∀ key, is_Some (get d0 key) → is_Some (get saved key))
                ∧ names (load_last_seen (LAST_SEEN_FILES k) w)
                  ⊆ names (as_loaded saved))
  ∧ (∀ k k' url w,
       persisted_ids k' w ⊆ persisted_ids k' (process_feed k url w).2)
  ∧ (∀ k w, persisted_ids k w ⊆ persisted_ids k (main w).2)
  ∧ (∀ k nets w,
       persisted_ids k w
       ⊆ persisted_ids k
           (fold_left (next_run dateparser_parse feedparser_parse) nets w)).
Proof.
  split; [|split; [|split; [|split]]].
  - intros now last_seen d0 entries k. rewrite classify_entries_spec. simpl.
    apply record_stamps_get_is_Some.
  - intros k url raw w d0 Hfetch Hd. eexists. split; [|split].
    + apply (process_feed_state_file _ _ _ _ _ Hfetch Hd).
    + intros key. apply record_stamps_get_is_Some.
    + intros s Hs. apply names_as_loaded, record_stamps_names. right.
      by eapply names_of_json.
  - apply process_feed_persisted.
  - apply main_persisted.
  - intros k nets. induction nets as [|net nets IH]; intros w; [done|].
    simpl. etrans; [apply (next_run_persisted k w net)|]. apply IH.
Qed.



(** *** Running twice *)

Lemma filter_all_false {A : Type} (f : A → bool) (l : list A) :
  Forall (λ x, f x = false) l → List.filter f l = [].
Proof.
  induction 1 as [|x l Hx _ IH]; simpl; [done|]. by rewrite Hx.
Qed.

Lemma has_own_stamp_same (now1 now2 : datetime) (e : RawEntry) :
  has_own_stamp e → entry_stamp now2 e = entry_stamp now1 e.
Proof.
  rewrite !entry_stamp_cases. intros [[d Hd]|[Hp|Hu]].
  - by rewrite Hd.
  - destruct (parse_entry_date e); [done|]. by rewrite Hp.
  - destruct (parse_entry_date e); [done|].
    destruct (Py.truthy_opt (published e)); [done|]. by rewrite Hu.
Qed.

Lemma same_now_same_stamp (now1 now2 : datetime) (e : RawEntry) :
  isoformat now2 = isoformat now1 → entry_stamp now2 e = entry_stamp now1 e.
Proof. intros H. rewrite !entry_stamp_cases. by rewrite H. Qed.

Lemma setitem_same (k : key) (v : json) (d : dict) :
  get d k = Some v → setitem k v d = d.
Proof.
  induction d as [|[k0 v0] d IH]; simpl; [done|].
  rewrite get_cons. simpl. destruct (key_eqb k0 k).
  - by intros [= ->].
  - intros H. by rewrite IH.
Qed.

Lemma record_stamps_fixed (now : datetime) (entries : list RawEntry)
    (d : dict) :
  Forall (λ e, get d (KStr (parse_entry_id e))
               = Some (JString (entry_stamp now e))) entries →
  record_stamps now entries d = d.
Proof.
  induction 1 as [|e entries He _ IH]; [done|].
  by rewrite record_stamps_cons, setitem_same.
Qed.

Lemma record_stamps_again (now1 now2 : datetime) (entries : list RawEntry)
    (d : dict) :
  NoDup (map parse_entry_id entries) →
  Forall (λ e, entry_stamp now2 e = entry_stamp now1 e) entries →
  record_stamps now2 entries (record_stamps now1 entries d)
  = record_stamps now1 entries d.
Proof.
  intros Hnd Hsame. apply record_stamps_fixed. apply Forall_forall.
  intros e He. rewrite (proj1 (Forall_forall _ _) Hsame e He).
  apply list_elem_of_split in He as (l1 & l2 & ->).
  apply record_stamps_get_last. by eapply NoDup_split_last.
Qed.

Lemma seen_entry_not_new_again (now1 now2 : datetime)
    (seen : json) (e : RawEntry) :
  reads_back dateparser_parse e →
  getitem seen (parse_entry_id e) = Some (JString (entry_stamp now1 e)) →
  entry_is_new now2 seen e = false.
Proof.
  intros Hback Hm. unfold Spec.entry_is_new.
  destruct (in_seen seen (parse_entry_id e)) eqn:Hseen.
  - rewrite (is_new_seen _ _ _ _ Hseen). unfold stored_stamp. rewrite Hm.
    simpl. rewrite entry_stamp_cases.
    unfold reads_back in Hback.
    destruct (parse_entry_date e) as [d|] eqn:Hd.
    + unfold stored_datetime. rewrite Hback.
      apply parse_entry_date_utc in Hd. unfold is_naive. rewrite Hd. simpl.
      unfold gt. by rewrite Z.ltb_irrefl.
    + by destruct (stored_datetime _ _).
  - unfold in_seen in Hseen. destruct seen as [|b|n|s|l|ms]; try done.
    rewrite contains_object, Hm in Hseen.
    rewrite bool_decide_eq_true_2 in Hseen by eauto. done.
Qed.

Lemma as_loaded_getitem (d : dict) (s : string) :
  others d = [] → distinct d →
  getitem (as_loaded d) s = get d (KStr s).
Proof.
  intros Ho Hd. symmetry.
  apply (of_json_object_get _ d s (of_json_as_loaded d Ho Hd)).
Qed.

Lemma novel_entries_rerun (now1 now2 : datetime) (d : dict)
    (entries : list RawEntry) :
  others d = [] → distinct d →
  NoDup (map parse_entry_id entries) →
  Forall (reads_back dateparser_parse) entries →
  novel_entries now2 (as_loaded (record_stamps now1 entries d)) entries = [].
Proof.
  intros Ho Hd Hnd Hback. unfold Spec.novel_entries.
  rewrite filter_all_false; [done|].
  apply Forall_forall. intros e He.
  apply (seen_entry_not_new_again now1).
  - by apply (proj1 (Forall_forall _ _) Hback).
  - rewrite as_loaded_getitem.
    + apply list_elem_of_split in He as (l1 & l2 & ->).
      apply record_stamps_get_last. by eapply NoDup_split_last.
    + by rewrite record_stamps_others.
    + by apply record_stamps_distinct.
Qed.

Lemma record_stamps_rerun_get (now1 now2 : datetime)
    (d : dict) (entries : list RawEntry) (k : key) :
  get (record_stamps now2 entries (record_stamps now1 entries d)) k
  = get (record_stamps now1 entries d) k
  ∨ ∃ e, e ∈ entries ∧ KStr (parse_entry_id e) = k ∧ ¬ has_own_stamp e
         ∧ get (record_stamps now2 entries (record_stamps now1 entries d)) k
           = Some (JString (isoformat now2)).
Proof.
  assert (Hother :
            (∀ e, e ∈ entries → k ≠ KStr (parse_entry_id e)) →
            get (record_stamps now2 entries (record_stamps now1 entries d)) k
            = get (record_stamps now1 entries d) k).
  { intros Hk. by rewrite !record_stamps_get_other. }
  destruct k as [|b|n|s]; try (left; apply Hother; by intros e He).
  destruct (decide (s ∈ map parse_entry_id entries)) as [Hin|Hnin].
  - clear Hother.
    destruct (last_occurrence _ _ Hin) as (l1 & e & l2 & Heq & <- & Hl2).
    rewrite Heq, !record_stamps_get_last by done. rewrite <- Heq.
    destruct (parse_entry_date e) as [d'|] eqn:Hd.
    { left. do 2 f_equal. apply has_own_stamp_same. left. eauto. }
    destruct (Py.truthy_opt (published e)) eqn:Hp.
    { left. do 2 f_equal. apply has_own_stamp_same. right. by left. }
    destruct (Py.truthy_opt (updated e)) eqn:Hu.
    { left. do 2 f_equal. apply has_own_stamp_same. right. by right. }
    right. exists e. split; [|split; [done|split]].
    + rewrite Heq. apply elem_of_app. right. by left.
    + intros [[d'' Hd'']|[Hp'|Hu']]; congruence.
    + by rewrite entry_stamp_cases, Hd, Hp, Hu.
  - left. apply Hother. intros e He [= ->].
    apply Hnin, list_elem_of_fmap. eauto.
Qed.

Lemma record_stamps_rerun (now1 now2 : datetime) (d : dict)
    (entries : list RawEntry) :
  NoDup (map parse_entry_id entries) →
  Forall has_own_stamp entries ∨ isoformat now2 = isoformat now1 →
  record_stamps now2 entries (record_stamps now1 entries d)
  = record_stamps now1 entries d.
Proof.
  intros Hnd Hsame. apply record_stamps_again; [done|].
  destruct Hsame as [Hown|Hnow].
  - eapply Forall_impl; [exact Hown|]. intros e. apply has_own_stamp_same.
  - apply Forall_forall. intros e _. by apply same_now_same_stamp.
Qed.

Lemma initial_as_loaded (now : datetime) (last_seen : json) (d0 : dict)
    (entries : list RawEntry) :
  of_json last_seen = Py.Ok d0 → others d0 = [] →
  initial (as_loaded (record_stamps now entries d0))
  = record_stamps now entries d0.
Proof.
  intros Hd Ho. unfold initial. rewrite of_json_as_loaded; [done| |].
  - by rewrite record_stamps_others.
  - apply record_stamps_distinct. by eapply of_json_distinct.
Qed.

(** C5, as the code has it: on a feed whose entries carry pairwise distinct
    identities, read by a date parser that reads back the stamps written, a
    second run over the same entries from the seen record the first saved
    (a mapping with string keys, as every mapping is that the first run
    copied from a JSON object) finds nothing new. Its seen record differs
    from the first only under the identities of entries with neither a
    timestamp nor a published or updated string, whose stamp becomes the
    second run's [now]; the two records are equal when there is no such
    entry or when both runs read the same [now]. *)
Theorem rerun_finds_nothing_new (now1 now2 : datetime)
    (last_seen : json) (d0 : dict) (entries : list RawEntry) :
  of_json last_seen = Py.Ok d0 → others d0 = [] →
  NoDup (map parse_entry_id entries) →
  Forall (reads_back dateparser_parse) entries →
  of_json (as_loaded (classify_entries now1 last_seen d0 entries).2)
  = Py.Ok (classify_entries now1 last_seen d0 entries).2
  ∧ (classify_entries now2
       (as_loaded (classify_entries now1 last_seen d0 entries).2)
       (classify_entries now1 last_seen d0 entries).2 entries).1 = []
  ∧ (∀ k, get (classify_entries now2
                 (as_loaded (classify_entries now1 last_seen d0 entries).2)
                 (classify_entries now1 last_seen d0 entries).2 entries).2 k
          = get (classify_entries now1 last_seen d0 entries).2 k
          ∨ ∃ e, e ∈ entries ∧ KStr (parse_entry_id e) = k
                 ∧ ¬ has_own_stamp e
                 ∧ get (classify_entries now2
                          (as_loaded
                             (classify_entries now1 last_seen d0 entries).2)
                          (classify_entries now1 last_seen d0 entries).2
                          entries).2 k
                   = Some (JString (isoformat now2)))
  ∧ (Forall has_own_stamp entries ∨ isoformat now2 = isoformat now1 →
     (classify_entries now2
        (as_loaded (classify_entries now1 last_seen d0 entries).2)
        (classify_entries now1 last_seen d0 entries).2 entries).2
     = (classify_entries now1 last_seen d0 entries).2).
Proof.
  intros Hd Ho Hnd Hback. rewrite !classify_entries_spec. cbn [fst snd].
  assert (Hdist : distinct d0) by (by eapply of_json_distinct).
  split; [|split; [|split]].
  - apply of_json_as_loaded.
    + by rewrite record_stamps_others.
    + by apply record_stamps_distinct.
  - by rewrite novel_entries_rerun.
  - apply record_stamps_rerun_get.
  - by apply record_stamps_rerun.
Qed.

(** The same on the files: two runs of [process_feed] in a row, the seen
    file missing or readable at the start and holding a mapping with string
    keys. The second run reports success and writes a document without
    items; it leaves the seen file as the first wrote it when every entry has
    a stamp of its own. *)
Lemma process_feed_twice (k : feed_key) (url raw : string) (w : Env.world)
    (d0 : dict) :
  safe_fetch url w = Some raw →
  of_json (load_last_seen (LAST_SEEN_FILES k) w) = Py.Ok d0 →
  others d0 = [] →
  NoDup (map parse_entry_id (feedparser_parse raw)) →
  Forall (reads_back dateparser_parse) (feedparser_parse raw) →
  (∀ f, Env.files w !! LAST_SEEN_FILES k = Some f → Env.readable f = true) →
  (process_feed k url (process_feed k url w).2).1 = Py.Ok true
  ∧ document_items
      <$> content_at (OUTFILES k)
            (process_feed k url (process_feed k url w).2).2
    = Some []
  ∧ (Forall has_own_stamp (feedparser_parse raw) →
     content_at (LAST_SEEN_FILES k)
       (process_feed k url (process_feed k url w).2).2
     = content_at (LAST_SEEN_FILES k) (process_feed k url w).2).
Proof.
  intros Hfetch Hd Ho Hnd Hback Hreadable.
  assert (Hdist : distinct d0) by (by eapply of_json_distinct).
  assert (Hfetch1 : safe_fetch url (process_feed k url w).2 = Some raw).
  { by rewrite process_feed_safe_fetch. }
  assert (Hload : load_last_seen (LAST_SEEN_FILES k) (process_feed k url w).2
                  = as_loaded (record_stamps (Env.datetime_now_utc w).1
                                 (feedparser_parse raw) d0)).
  { rewrite (process_feed_fetched _ _ _ _ _ Hfetch Hd). cbn [fst snd].
    rewrite load_last_seen_save. simpl.
    rewrite lookup_insert_ne by apply OUTFILES_not_LAST_SEEN.
    destruct (Env.files w !! LAST_SEEN_FILES k) as [f|] eqn:Hf; [|done].
    by rewrite (Hreadable f). }
  assert (Hd1 : of_json (load_last_seen (LAST_SEEN_FILES k)
                           (process_feed k url w).2)
                = Py.Ok (record_stamps (Env.datetime_now_utc w).1
                           (feedparser_parse raw) d0)).
  { rewrite Hload. apply of_json_as_loaded.
    - by rewrite record_stamps_others.
    - by apply record_stamps_distinct. }
  split; [|split].
  - by rewrite process_feed_result, Hfetch1, Hd1.
  - rewrite (process_feed_output_file _ _ _ _ _ Hfetch1 Hd1).
    cbn [fmap option_fmap option_map].
    rewrite document_items_build, Hload.
    by rewrite novel_entries_rerun.
  - intros Hown.
    rewrite (process_feed_state_file _ _ _ _ _ Hfetch1 Hd1).
    rewrite record_stamps_rerun by auto.
    by rewrite (process_feed_state_file _ _ _ _ _ Hfetch Hd).
Qed.

(** *** Items of the output document, continued *)

Lemma parse_entry_date_in_range (e : RawEntry) (d : datetime) :
  parse_entry_date e = Some d → in_range (ticks d) = true.
Proof.
  rewrite parse_entry_date_attempts. unfold timestamp_attempts. simpl.
  assert (Hs : ∀ v, structured_utc v = Some d → in_range (ticks d) = true).
  { intros [t|]; simpl; [|done]. unfold of_civil.
    destruct (civil_valid _) eqn:Hv; [|done]. intros [= <-]. simpl.
    by apply civil_ticks_in_range. }
  assert (Hp : ∀ v, string_utc dateparser_parse v = Some d →
                    in_range (ticks d) = true).
  { intros [[|a s]|]; simpl; try done.
    destruct (dateparser_parse _) as [dt|]; [|done]. unfold normalize_utc.
    case_match eqn:Hr; [|done]. by intros [= <-]. }
  repeat match goal with
         | |- match ?x with _ => _ end = _ → _ =>
             destruct x eqn:?; [intros [= ->]; eauto|]
         end.
  done.
Qed.

(** *** Items of the output document *)

Lemma item_element_fields (it : item) :
  Xml.tag (item_element it) = "item"%string
  ∧ Xml.findtext "title" (item_element it) = provided (item_title it)
  ∧ Xml.findtext "link" (item_element it) = provided (item_link it)
  ∧ Xml.findtext "guid" (item_element it)
    = (if Py.truthy (item_id it) then Some (item_id it) else None)
  ∧ Xml.findtext "pubDate" (item_element it)
    = Some match astimezone_utc (item_published it) with
           | Some u => isoformat u
           | None => str (item_published it)
           end
  ∧ Xml.findtext "description" (item_element it)
    = (if Py.truthy (item_summary it) then Some (item_summary it) else None).
Proof.
  destruct it as [i t l s p]. unfold item_element. cbn [item_id item_title
    item_link item_summary item_published].
  generalize (match astimezone_utc p with
              | Some u => isoformat u
              | None => str p
              end).
  intros pd. unfold Xml.findtext, Xml.find, Xml.findall.
  destruct t as [[|ta t]|], l as [[|la l]|], i as [|ia i], s as [|sa s];
    simpl; repeat split; reflexivity.
Qed.

Lemma item_summary_provided (now : datetime) (e : RawEntry) :
  (if Py.truthy (item_summary (entry_item now e))
   then Some (item_summary (entry_item now e)) else None)
  = match provided (summary e) with
    | Some s => Some s
    | None => provided (description e)
    end.
Proof.
  unfold Spec.entry_item, make_item, Py.or_opt. simpl.
  by destruct (summary e) as [[|a s]|], (description e) as [[|b t]|].
Qed.

(** C9, as the code has it: an item of the output document has a title, a
    link and a description only where the entry provides a non-empty title,
    link, and summary or description; it always has a guid, the entry's
    identity, and always has a pubDate, the ISO form of the entry's timestamp
    when one was resolved and of the run's [now] otherwise. *)
Theorem item_optional_fields (now : datetime) (e : RawEntry) :
  Xml.findtext "title" (item_element (entry_item now e)) = provided (title e)
  ∧ Xml.findtext "link" (item_element (entry_item now e))
    = provided (link e)
  ∧ Xml.findtext "description" (item_element (entry_item now e))
    = match provided (summary e) with
      | Some s => Some s
      | None => provided (description e)
      end
  ∧ Xml.findtext "guid" (item_element (entry_item now e))
    = Some (parse_entry_id e)
  ∧ is_Some (Xml.findtext "pubDate" (item_element (entry_item now e)))
  ∧ (∀ d, parse_entry_date e = Some d →
       Xml.findtext "pubDate" (item_element (entry_item now e))
       = Some (isoformat d))
  ∧ (parse_entry_date e = None →
     utcoffset now = UTC → in_range (ticks now) = true →
     Xml.findtext "pubDate" (item_element (entry_item now e))
     = Some (isoformat now)).
Proof.
  destruct (item_element_fields (entry_item now e))
    as (_ & Ht & Hl & Hg & Hp & Hd).
  rewrite Ht, Hl, Hg, Hp, Hd. clear Ht Hl Hg Hp Hd.
  split; [|split; [|split; [|split; [|split; [|split]]]]].
  - reflexivity.
  - reflexivity.
  - apply item_summary_provided.
  - unfold Spec.entry_item. simpl. by rewrite parse_entry_id_nonempty.
  - eauto.
  - intros d Hd. unfold Spec.entry_item. simpl. rewrite Hd. simpl.
    rewrite astimezone_utc_of_utc; [done| |].
    + by apply parse_entry_date_utc in Hd.
    + by apply parse_entry_date_in_range in Hd.
  - intros Hd Hutc Hrange. unfold Spec.entry_item. simpl. rewrite Hd. simpl.
    by rewrite astimezone_utc_of_utc.
Qed.

End Properties.

(* ===================================================================== *)
(** ** The properties on concrete runs *)
(* ===================================================================== *)

Import Sample.

#[local] Abbreviation bd_url :=
  ("https://evilgodfahim.github.io/bd/articles.xml"%string).
#[local] Abbreviation master_url :=
  ("https://evilgodfahim.github.io/Longreads/filtered.xml"%string).

(** A second run, an hour after the first, over three distinct entries and
    from an empty seen record: nothing is new. *)
Lemma rerun_finds_nothing_new_witness :
  of_json (JObject []) = Py.Ok []
  ∧ others [] = []
  ∧ NoDup (map parse_entry_id three_items)
  ∧ Forall (reads_back iso_parse) three_items
  ∧ (classify_entries iso_parse (at_utc 2024 1 2 1 0 0)
       (as_loaded
          (classify_entries iso_parse now_2024_01_02 (JObject []) []
             three_items).2)
       (classify_entries iso_parse now_2024_01_02 (JObject []) []
          three_items).2
       three_items).1 = [].
Proof.
  assert (Hnd : NoDup (map parse_entry_id three_items)).
  { apply (bool_decide_unpack _). vm_compute. exact I. }
  assert (Hback : Forall (reads_back iso_parse) three_items).
  { unfold three_items.
    repeat (apply List.Forall_cons;
            [vm_compute; first [reflexivity | exact I]|]).
    apply List.Forall_nil. }
  split; [reflexivity|]. split; [reflexivity|].
  split; [exact Hnd|]. split; [exact Hback|].
  exact (proj1 (proj2 (rerun_finds_nothing_new iso_parse now_2024_01_02
                         (at_utc 2024 1 2 1 0 0) (JObject []) [] three_items
                         eq_refl eq_refl Hnd Hback))).
Defined.

(** C5 fails as stated, twice over. A feed that lists one identity twice,
    the older copy last, has the newer copy reported again by the second run,
    even at the same [now]; and an entry without any date has its stamp
    rewritten to the second run's [now], a second later. *)
Lemma rerun_is_not_idle :
  ¬ rerun_is_idle iso_parse now_2024_01_02 now_2024_01_02 (JObject [])
      twice_listed
  ∧ ¬ rerun_is_idle iso_parse now_2024_01_02 (at_utc 2024 1 2 0 0 1)
        (JObject []) [titled "C"].
Proof.
  split.
  - intros [Hitems _]. vm_compute in Hitems. discriminate.
  - intros [_ Hmap].
    apply (f_equal (λ d : dict, get d (KStr "C||"))) in Hmap.
    vm_compute in Hmap. discriminate.
Qed.

(** The same on the files: two runs of [process_feed] over the twice-listed
    feed; the second document still carries the item. *)
Example second_run_resurfaces :
  let run1 := process_feed iso_parse feed_of bd bd_url
                (fresh (only_bd "twice")) in
  let run2 := process_feed iso_parse feed_of bd bd_url run1.2 in
  (Xml.findtext "guid" <$>
     default [] (document_items <$> content_at "daily_bd.xml" run2.2))
  = [Some "urn:a"%string].
Proof. vm_compute. reflexivity. Qed.

(** C9 fails as stated: the one entry of this feed has no date field at all,
    no id and no guid, and the item written for it carries a pubDate (the
    run's [now]) and a guid (the synthesised identity). *)
Lemma undated_item_has_pubDate :
  parse_entry_date iso_parse (titled "C") = None
  ∧ (document_items <$>
       content_at "daily_bd.xml"
         (process_feed iso_parse feed_of bd bd_url
            (fresh (only_bd "undated"))).2)
    = Some [ Xml.Element "item" [] None
               [ Xml.leaf "title" "C"; Xml.leaf "guid" "C||";
                 Xml.leaf "pubDate" "2024-01-02T00:00:00+00:00" ] ]
  ∧ ¬ undated_item_has_no_pubDate iso_parse now_2024_01_02 (titled "C").
Proof.
  split; [reflexivity|]. split; [vm_compute; reflexivity|].
  intros H. specialize (H eq_refl). vm_compute in H. discriminate.
Qed.

(** *** A seen-state file that holds JSON of another type than an object

    [load_last_seen] hands back whatever [json.load] yields, and
    [process_feed] passes it to [dict(...)] outside any [try]. *)

(** C7: a seen-state file holding [null] is neither read as the empty mapping
    nor recovered from: [load_last_seen] returns [None], on which
    [dict(last_seen)] raises [TypeError] out of [process_feed] -- while the
    same run with the file missing, or holding text that is not JSON, goes
    through. A number, a non-empty string and a list of numbers do the
    same. *)
Theorem null_state_is_not_recovered :
  load_last_seen "last_seen_bd.json" (with_state JNull (only_bd "three"))
  = JNull
  ∧ (process_feed iso_parse feed_of bd bd_url
       (with_state JNull (only_bd "three"))).1 = Py.Raise Py.TypeError
  ∧ (process_feed iso_parse feed_of bd bd_url
       (with_state (JNumber 7) (only_bd "three"))).1 = Py.Raise Py.TypeError
  ∧ (process_feed iso_parse feed_of bd bd_url
       (with_state (JString "seen") (only_bd "three"))).1
    = Py.Raise Py.ValueError
  ∧ (process_feed iso_parse feed_of bd bd_url
       (with_state (JArray [JNumber 1; JNumber 2]) (only_bd "three"))).1
    = Py.Raise Py.TypeError
  ∧ load_last_seen "last_seen_bd.json" (corrupt (only_bd "three"))
    = JObject []
  ∧ (process_feed iso_parse feed_of bd bd_url
       (corrupt (only_bd "three"))).1 = Py.Ok true
  ∧ (process_feed iso_parse feed_of bd bd_url
       (fresh (only_bd "three"))).1 = Py.Ok true.
Proof. repeat split; vm_compute; reflexivity. Qed.

(** C6: with the seen-state file holding [null], the fetch of the feed
    succeeds and the parser returns its three entries, yet [process_feed]
    raises before it opens the output file: no document is written, no file
    of the working directory is touched, and a document left by an earlier
    run stays as it was. *)
Theorem null_state_blocks_output :
  safe_fetch bd_url (with_state JNull (only_bd "three")) = Some "three"%string
  ∧ length (feed_of "three") = 3%nat
  ∧ (process_feed iso_parse feed_of bd bd_url
       (with_state JNull (only_bd "three"))).1 = Py.Raise Py.TypeError
  ∧ content_at "daily_bd.xml"
      (process_feed iso_parse feed_of bd bd_url
         (with_state JNull (only_bd "three"))).2 = None
  ∧ Env.files (process_feed iso_parse feed_of bd bd_url
                 (with_state JNull (only_bd "three"))).2
    = Env.files (with_state JNull (only_bd "three"))
  ∧ content_at "daily_bd.xml"
      (process_feed iso_parse feed_of bd bd_url
         (Env.open_write "daily_bd.xml" (Env.OtherText "earlier run")
            (with_state JNull (only_bd "three")))).2
    = Some (Env.OtherText "earlier run").
Proof. repeat split; vm_compute; reflexivity. Qed.

(** C8: with the seen-state file of [bd] holding [null] and both feeds
    answering, the exception leaves [main]: the exit status is 1 although
    both fetches succeeded, and [master] is never processed (neither its
    document nor its seen-state file exists afterwards). With the file
    missing, the same run exits with 0 and writes both documents. *)
Theorem null_state_aborts_run :
  safe_fetch bd_url (with_state JNull (both "three")) = Some "three"%string
  ∧ safe_fetch master_url (with_state JNull (both "three"))
    = Some "three"%string
  ∧ (main iso_parse feed_of (with_state JNull (both "three"))).1 = 1
  ∧ content_at "daily_master.xml"
      (main iso_parse feed_of (with_state JNull (both "three"))).2 = None
  ∧ content_at "last_seen_master.json"
      (main iso_parse feed_of (with_state JNull (both "three"))).2 = None
  ∧ (main iso_parse feed_of (fresh (both "three"))).1 = 0
  ∧ is_Some (content_at "daily_master.xml"
               (main iso_parse feed_of (fresh (both "three"))).2).
Proof.
  repeat split; try (vm_compute; reflexivity).
  vm_compute. eauto.
Qed.

(** *** The scenarios of §8 *)

(** §8.3: the boundary of the window. *)
Example boundary_scenario :
  is_new iso_parse (JObject []) (sub now_2024_01_02 DELTA) "x"
         (Some (at_utc 2024 1 1 0 0 0)) = true
  ∧ is_new iso_parse (JObject []) (sub now_2024_01_02 DELTA) "x"
           (Some (at_utc 2024 1 1 23 59 59)) = true
  ∧ is_new iso_parse (JObject []) (sub now_2024_01_02 DELTA) "x"
           (Some (at_utc 2023 12 31 23 59 59)) = false.
Proof. repeat split; vm_compute; reflexivity. Qed.

(** §8.4: unknown identity without a date. *)
Example undated_unseen_scenario :
  entry_is_new iso_parse now_2024_01_02 (JObject []) (titled "C") = true.
Proof. vm_compute. reflexivity. Qed.

(** §8.5: re-publish detection; and a stored value that is no date, or no
    string, keeps the entry out. *)
Example republish_scenario :
  is_new iso_parse (JObject [("x", JString "2024-01-01T00:00:00Z")]%string)
         (sub now_2024_01_02 DELTA) "x"
         (Some (at_utc 2024 1 1 12 0 0)) = true
  ∧ is_new iso_parse (JObject [("x", JString "2024-01-01T00:00:00Z")]%string)
           (sub now_2024_01_02 DELTA) "x"
           (Some (at_utc 2023 12 1 0 0 0)) = false
  ∧ is_new iso_parse (JObject [("x", JString "not a date")]%string)
           (sub now_2024_01_02 DELTA) "x"
           (Some (at_utc 2024 1 1 12 0 0)) = false
  ∧ is_new iso_parse (JObject [("x", JNumber 20240101)]%string)
           (sub now_2024_01_02 DELTA) "x"
           (Some (at_utc 2024 1 1 12 0 0)) = false.
Proof. repeat split; vm_compute; reflexivity. Qed.

(** §8.7: a seen-state file that is not JSON is read as empty, and the run
    rewrites it. *)
Example corrupt_state_scenario :
  load_last_seen "last_seen_bd.json" (corrupt (only_bd "three")) = JObject []
  ∧ load_last_seen "last_seen_bd.json"
      (process_feed iso_parse feed_of bd bd_url
         (corrupt (only_bd "three"))).2
    = JObject [ ("urn:a", JString "2024-01-01T12:00:00+00:00");
                ("urn:b", JString "2023-12-01T00:00:00+00:00");
                ("C||", JString "2024-01-02T00:00:00+00:00") ]%string.
Proof. split; vm_compute; reflexivity. Qed.

(** A seen-state file that holds a list of pairs is taken as the mapping
    [dict(...)] makes of it, while [in] looks for the identity among the
    elements of the list: the run goes through. *)
Example list_state_scenario :
  of_json (JArray [JArray [JString "urn:a"; JString "2024-01-01T12:00:00Z"];
                   JString "zz"])
  = Py.Ok [ (KStr "urn:a", JString "2024-01-01T12:00:00Z");
            (KStr "z", JString "z") ]%string
  ∧ (process_feed iso_parse feed_of bd bd_url
       (with_state (JArray [JArray [JString "urn:a"; JString "x"]])
          (only_bd "three"))).1 = Py.Ok true.
Proof. split; vm_compute; reflexivity. Qed.

(** §8.8: exit status. *)
Example exit_status_scenario :
  (main iso_parse feed_of (fresh (only_master "three"))).1 = 0
  ∧ (main iso_parse feed_of (fresh (only_bd "three"))).1 = 0
  ∧ (main iso_parse feed_of (fresh (λ _, None))).1 = 1.
Proof. repeat split; vm_compute; reflexivity. Qed.

(** Formatting and the calendar. *)
Example isoformat_examples :
  isoformat <$> of_civil (mk_civil 2024 1 1 0 0 0 0) UTC
  = Some "2024-01-01T00:00:00+00:00"%string
  ∧ isoformat <$> of_civil (mk_civil 2024 2 29 23 59 58 250) (Some (-19800))
    = Some "2024-02-29T23:59:58.000250-05:30"%string
  ∧ of_civil (mk_civil 2023 2 29 0 0 0 0) UTC = None
  ∧ ymd2ord 9999 12 31 = MAXORDINAL
  ∧ ord2ymd 719163 = (1970, 1, 1).
Proof. repeat split; vm_compute; reflexivity. Qed.

(** A structured time is read as UTC civil fields. *)
Example structured_time_scenario :
  isoformat <$>
    parse_entry_date iso_parse
      (structured "urn:s" (mk_struct_time 2024 1 1 6 30 0 0 1 0))
  = Some "2024-01-01T06:30:00+00:00"%string.
Proof. vm_compute. reflexivity. Qed.

(* ===================================================================== *)
(** ** Further properties of the script *)
(* ===================================================================== *)

(** *** Identity *)

(** X3: [parse_entry_id] never yields the empty string: an entry without a
    usable id, guid, link, title, published or updated field still gets the
    bare separator as its identity. *)
Theorem parse_entry_id_never_empty (e : RawEntry) :
  parse_entry_id e ≠ EmptyString
  ∧ (absent (id e) → absent (guid e) → absent (link e) →
     absent (title e) → absent (published e) → absent (updated e) →
     parse_entry_id e = "||"%string).
Proof.
  split.
  - pose proof (parse_entry_id_nonempty e) as H.
    intros Heq. rewrite Heq in H. discriminate.
  - intros Hi Hg Hl Ht Hp Hu. unfold parse_entry_id.
    apply present_None in Hi, Hg, Hl. rewrite Hi, Hg, Hl.
    destruct Ht as [-> | ->], Hp as [-> | ->], Hu as [-> | ->]; reflexivity.
Qed.

Lemma present_provided (v : option string) : present v = provided v.
Proof. by destruct v as [[|a s]|]. Qed.

Lemma parse_entry_id_identity (e : RawEntry) : parse_entry_id e = identity e.
Proof.
  unfold parse_entry_id, identity. rewrite !present_provided.
  destruct (provided (id e)); [done|].
  destruct (provided (guid e)); [done|].
  destruct (provided (link e)); [done|].
  unfold synthesized_key, Py.get_default, Py.or_str.
  by destruct (title e) as [t|], (published e) as [[|a p]|],
    (updated e) as [u|].
Qed.

(** *** Output items *)

(** X9: the children of an item element are leaves, come in the order title,
    link, guid, pubDate, description, and none of them twice. *)
Theorem item_element_shape (it : item) :
  sublist (map Xml.tag (Xml.children (item_element it)))
          ["title"; "link"; "guid"; "pubDate"; "description"]%string
  ∧ Forall (λ c, Xml.children c = [] ∧ is_Some (Xml.text c))
           (Xml.children (item_element it))
  ∧ Xml.text (item_element it) = None.
Proof.
  destruct it as [i t l s p]. unfold item_element.
  cbn [item_id item_title item_link item_summary item_published].
  generalize (match astimezone_utc p with
              | Some u => isoformat u
              | None => str p
              end).
  intros pd.
  destruct t as [[|ta t]|], l as [[|la l]|], i as [|ia i], s as [|sa s];
    simpl; (split; [|split; [|reflexivity]]);
    try (repeat first [ apply sublist_skip | apply sublist_cons
                      | apply sublist_nil ]);
    repeat (apply List.Forall_cons; [split; [reflexivity|eauto]|]);
    apply List.Forall_nil.
Qed.

Section FurtherProperties.

Variable dateparser_parse : string → option datetime.
Variable feedparser_parse : string → list RawEntry.

#[local] Abbreviation parse_entry_date :=
  (Feed.parse_entry_date dateparser_parse).
#[local] Abbreviation is_new := (Feed.is_new dateparser_parse).
#[local] Abbreviation classify_entries :=
  (Feed.classify_entries dateparser_parse).
#[local] Abbreviation process_feed :=
  (Feed.process_feed dateparser_parse feedparser_parse).
#[local] Abbreviation main := (Feed.main dateparser_parse feedparser_parse).
#[local] Abbreviation entry_is_new := (Spec.entry_is_new dateparser_parse).
#[local] Abbreviation entry_item := (Spec.entry_item dateparser_parse).
#[local] Abbreviation novel_entries := (Spec.novel_entries dateparser_parse).
#[local] Abbreviation record_stamps := (Spec.record_stamps dateparser_parse).
#[local] Abbreviation table_verdict := (Spec.table_verdict dateparser_parse).
#[local] Abbreviation expected_texts :=
  (Spec.expected_texts dateparser_parse).
#[local] Abbreviation bd_url :=
  ("https://evilgodfahim.github.io/bd/articles.xml"%string).
#[local] Abbreviation master_url :=
  ("https://evilgodfahim.github.io/Longreads/filtered.xml"%string).

(** *** Timestamps *)

(** X13: an entry with no date field of any kind has no timestamp, whatever
    the date parser would make of other strings; and a timestamp that is
    resolved lies within the calendar and is already in UTC, so converting
    it to UTC again, as [build_rss_xml] does, returns it unchanged. *)
Theorem parse_entry_date_edges (e : RawEntry) :
  (published_parsed e = None → updated_parsed e = None →
   absent (published e) → absent (updated e) →
   absent (pubDate e) → absent (date e) →
   parse_entry_date e = None)
  ∧ (∀ d, parse_entry_date e = Some d →
       in_range (ticks d) = true ∧ utcoffset d = UTC
       ∧ astimezone_utc d = Some d).
Proof.
  split.
  - intros Hpp Hup Hp Hu Hpd Hd. unfold Feed.parse_entry_date. simpl.
    rewrite Hpp, Hup. simpl.
    by destruct Hp as [-> | ->], Hu as [-> | ->], Hpd as [-> | ->],
      Hd as [-> | ->].
  - intros d Hd.
    pose proof (parse_entry_date_in_range _ _ _ Hd) as Hrange.
    pose proof (parse_entry_date_utc _ _ _ Hd) as Hutc.
    split; [done|]. split; [done|]. by apply astimezone_utc_of_utc.
Qed.

(** X14: when one of the structured times is usable the date parser is
    never consulted: the timestamp is the same with any parser. *)
Theorem structured_time_shields_parser (e : RawEntry)
    (other_parser : string → option datetime) :
  (is_Some (try_structured (published_parsed e))
   ∨ is_Some (try_structured (updated_parsed e)) →
   Feed.parse_entry_date other_parser e = parse_entry_date e)
  ∧ (∀ d, try_structured (published_parsed e) = Some d →
       Feed.parse_entry_date other_parser e = Some d).
Proof.
  unfold Feed.parse_entry_date. simpl. split.
  - intros [[d Hd]|[d Hd]].
    + by rewrite Hd.
    + rewrite Hd. by destruct (try_structured (published_parsed e)).
  - intros d Hd. by rewrite Hd.
Qed.

(** *** The window *)

Lemma is_new_within_window (last_seen : json) (now : datetime)
    (eid : string) (d : datetime) :
  is_new last_seen (sub now DELTA) eid (Some d) = true →
  instant now - 86400000000 ≤ instant d.
Proof.
  intros H. apply window_cutoff.
  destruct (in_seen last_seen eid) eqn:Hseen.
  - rewrite (is_new_seen _ _ _ _ _ Hseen) in H.
    destruct (stored_stamp last_seen eid
              ≫= stored_datetime dateparser_parse); [|done].
    by apply andb_true_iff in H as [_ H].
  - by rewrite (is_new_unseen _ _ _ _ _ Hseen) in H.
Qed.

(** X6: an entry dated before [now - 24h] is never new, whatever the seen
    record holds; an entry that is new is either undated and unseen, or
    dated inside the window. *)
Theorem stale_entry_never_new (last_seen : json)
    (now : datetime) (eid : string) (edate : option datetime) :
  (∀ d, edate = Some d → instant d < instant now - 86400000000 →
     is_new last_seen (sub now DELTA) eid edate = false)
  ∧ (is_new last_seen (sub now DELTA) eid edate = true →
     (edate = None ∧ in_seen last_seen eid = false)
     ∨ ∃ d, edate = Some d ∧ instant now - 86400000000 ≤ instant d).
Proof.
  split.
  - intros d -> Hlt. apply not_true_is_false. intros H.
    apply is_new_within_window in H. lia.
  - intros H. destruct edate as [d|].
    + right. exists d. split; [done|]. by eapply is_new_within_window.
    + left. split; [done|].
      destruct (in_seen last_seen eid) eqn:Hseen; [|done].
      rewrite (is_new_seen _ _ _ _ _ Hseen) in H.
      by destruct (stored_stamp last_seen eid
                   ≫= stored_datetime dateparser_parse).
Qed.

Lemma elem_of_novel_entries (now : datetime) (last_seen : json)
    (entries : list RawEntry) (e : RawEntry) :
  e ∈ novel_entries now last_seen entries
  ↔ e ∈ entries ∧ entry_is_new now last_seen e = true.
Proof.
  unfold Spec.novel_entries. rewrite !list_elem_of_In. apply List.filter_In.
Qed.

(** X7: every item of a run is dated at or after [now - 24h]: with the
    entry's timestamp, which lies in the window, or with [now]. *)
Theorem items_dated_within_window (now : datetime)
    (last_seen : json) (d0 : dict) (entries : list RawEntry) :
  Forall (λ it, instant now - 86400000000 ≤ instant (item_published it))
         (classify_entries now last_seen d0 entries).1.
Proof.
  rewrite classify_entries_spec. cbn [fst]. apply Forall_forall.
  intros it (e & -> & [_ Hnew]%elem_of_novel_entries)%list_elem_of_fmap.
  unfold Spec.entry_item, Spec.entry_is_new in *. simpl.
  destruct (Feed.parse_entry_date dateparser_parse e) as [d|]; simpl.
  - by eapply is_new_within_window.
  - lia.
Qed.

(** X8: every item of a run carries the identity of an entry of the feed,
    and that identity has a stamp in the seen record the run saves. *)
Theorem items_are_recorded (now : datetime)
    (last_seen : json) (d0 : dict) (entries : list RawEntry) :
  Forall (λ it, item_id it ∈ map parse_entry_id entries
                ∧ is_Some (get (classify_entries now last_seen d0 entries).2
                               (KStr (item_id it))))
         (classify_entries now last_seen d0 entries).1.
Proof.
  rewrite classify_entries_spec. cbn [fst snd]. apply Forall_forall.
  intros it (e & -> & [He _]%elem_of_novel_entries)%list_elem_of_fmap.
  assert (Hin : parse_entry_id e ∈ map parse_entry_id entries).
  { apply list_elem_of_fmap. eauto. }
  split; [exact Hin|]. cbn [item_id Spec.entry_item make_item].
  destruct (record_stamps_get_listed dateparser_parse now _ d0 _ Hin)
    as (e' & _ & _ & ->).
  eauto.
Qed.

(** *** The loop *)

(** X4: the loop treats a feed piece by piece: an empty feed gives no item
    and leaves the seen record as it was copied; the items of a
    concatenation are the items of its parts, each judged against the record
    as loaded; and the record after the whole is the record after the first
    part with the stamps of the second stored on top. *)
Theorem classify_entries_app (now : datetime)
    (last_seen : json) (d0 : dict) (l1 l2 : list RawEntry) :
  classify_entries now last_seen d0 [] = ([], d0)
  ∧ (classify_entries now last_seen d0 (l1 ++ l2)).1
    = (classify_entries now last_seen d0 l1).1
      ++ (classify_entries now last_seen d0 l2).1
  ∧ (classify_entries now last_seen d0 (l1 ++ l2)).2
    = record_stamps now l2 (classify_entries now last_seen d0 l1).2.
Proof.
  split; [reflexivity|]. rewrite !classify_entries_spec. cbn [fst snd].
  split.
  - unfold Spec.novel_entries. by rewrite List.filter_app, map_app.
  - apply record_stamps_app.
Qed.

Lemma entry_is_new_without_record (now : datetime)
    (last_seen : json) (e : RawEntry) :
  entry_is_new now last_seen e = true →
  entry_is_new now (JObject []) e = true.
Proof.
  unfold Spec.entry_is_new. intros H.
  rewrite (is_new_unseen dateparser_parse (JObject []) _ _ _ eq_refl).
  destruct (Feed.parse_entry_date dateparser_parse e) as [d|] eqn:Hd; [|done].
  apply window_cutoff. by eapply is_new_within_window.
Qed.

(** X11: losing the seen record can only add items: whatever is new against
    a seen record is new against the empty one, in the same order. *)
Theorem forgetting_only_adds (now : datetime)
    (last_seen : json) (entries : list RawEntry) :
  sublist (novel_entries now last_seen entries)
          (novel_entries now (JObject []) entries).
Proof.
  unfold Spec.novel_entries.
  induction entries as [|e entries IH]; simpl; [constructor|].
  destruct (entry_is_new now last_seen e) eqn:Hnew.
  - rewrite (entry_is_new_without_record _ _ _ Hnew). by apply sublist_skip.
  - destruct (entry_is_new now (JObject []) e);
      [by apply sublist_cons | done].
Qed.

(** *** Feed processor *)

(** X2: [process_feed] writes the output file and the seen file of its own
    feed and nothing else: every other path, the network, the clock and the
    local zone are as before, and the clock has been read twice when the
    call returns [True], once when it raises, and not at all when the fetch
    failed. *)
Theorem process_feed_isolation (k : feed_key) (url : string)
    (w : Env.world) :
  (∀ p, p ≠ OUTFILES k → p ≠ LAST_SEEN_FILES k →
     Env.files (process_feed k url w).2 !! p = Env.files w !! p)
  ∧ (∀ k', k' ≠ k →
       content_at (OUTFILES k') (process_feed k url w).2
       = content_at (OUTFILES k') w
       ∧ load_last_seen (LAST_SEEN_FILES k') (process_feed k url w).2
         = load_last_seen (LAST_SEEN_FILES k') w)
  ∧ Env.urlopen (process_feed k url w).2 = Env.urlopen w
  ∧ Env.clock (process_feed k url w).2 = Env.clock w
  ∧ Env.local_utcoffset (process_feed k url w).2 = Env.local_utcoffset w
  ∧ Env.clock_reads (process_feed k url w).2
    = match (process_feed k url w).1 with
      | Py.Ok true => S (S (Env.clock_reads w))
      | Py.Ok false => Env.clock_reads w
      | Py.Raise _ => S (Env.clock_reads w)
      end.
Proof.
  assert (Hother : ∀ p, p ≠ OUTFILES k → p ≠ LAST_SEEN_FILES k →
            Env.files (process_feed k url w).2 !! p = Env.files w !! p).
  { intros p Ho Hl. by apply process_feed_other_files. }
  split; [exact Hother|]. split.
  - intros k' Hne. split.
    + unfold content_at. rewrite Hother; [done| |].
      * intros Heq. apply OUTFILES_inj in Heq. congruence.
      * apply OUTFILES_not_LAST_SEEN.
    + by apply process_feed_load_other.
  - destruct (safe_fetch url w) as [raw|] eqn:H.
    + destruct (of_json (load_last_seen (LAST_SEEN_FILES k) w))
        as [d|e] eqn:Hd.
      * by rewrite (process_feed_fetched _ _ _ _ _ _ _ H Hd).
      * by rewrite (process_feed_raised _ _ _ _ _ _ _ H Hd).
    + by rewrite (process_feed_failed _ _ _ _ _ H).
Qed.

(** X5: a feed that is fetched and has no entries still counts as a success
    when the seen record can be copied: the document written has no item,
    and the seen file holds exactly the mapping that was copied, empty when
    there was no file. *)
Theorem process_feed_empty_feed (k : feed_key) (url raw : string)
    (w : Env.world) (d : dict) :
  safe_fetch url w = Some raw →
  feedparser_parse raw = [] →
  of_json (load_last_seen (LAST_SEEN_FILES k) w) = Py.Ok d →
  (process_feed k url w).1 = Py.Ok true
  ∧ document_items <$> content_at (OUTFILES k) (process_feed k url w).2
    = Some []
  ∧ content_at (LAST_SEEN_FILES k) (process_feed k url w).2
    = Some (Env.json_dump d)
  ∧ (Env.files w !! LAST_SEEN_FILES k = None → d = []).
Proof.
  intros Hfetch Hempty Hd. split; [|split; [|split]].
  - by rewrite process_feed_result, Hfetch, Hd.
  - rewrite (process_feed_output_file _ _ _ _ _ _ _ Hfetch Hd), Hempty.
    cbn [fmap option_fmap option_map]. by rewrite document_items_build.
  - by rewrite (process_feed_state_file _ _ _ _ _ _ _ Hfetch Hd), Hempty.
  - intros Hnone. rewrite load_last_seen_cases, Hnone in Hd.
    simpl in Hd. congruence.
Qed.

Lemma present_item_texts (now : datetime) (e : RawEntry) :
  item_texts (item_element (entry_item now e)) = expected_texts now e.
Proof.
  unfold item_texts, Spec.expected_texts.
  destruct (item_element_fields (entry_item now e))
    as (_ & -> & -> & -> & -> & ->).
  rewrite (item_summary_provided dateparser_parse).
  unfold Spec.entry_item. cbn [item_title item_link item_id item_published
    make_item].
  rewrite (parse_entry_id_nonempty e), parse_entry_id_identity.
  unfold Spec.resolved_timestamp.
  rewrite <- (parse_entry_date_attempts dateparser_parse).
  destruct (parse_entry_date e) as [d|] eqn:Hd; cbn [default]; [|done].
  rewrite astimezone_utc_of_utc; [done| |].
  - by apply parse_entry_date_utc in Hd.
  - by apply parse_entry_date_in_range in Hd.
Qed.

Lemma entry_is_new_table (now : datetime) (last_seen : json) (e : RawEntry) :
  entry_is_new now last_seen e = table_verdict now last_seen e.
Proof.
  unfold Spec.entry_is_new, Spec.table_verdict, Spec.resolved_timestamp.
  rewrite is_new_table, parse_entry_id_identity.
  by rewrite <- (parse_entry_date_attempts dateparser_parse).
Qed.

Lemma novel_entries_table (now : datetime) (last_seen : json)
    (entries : list RawEntry) :
  novel_entries now last_seen entries
  = List.filter (table_verdict now last_seen) entries.
Proof.
  unfold Spec.novel_entries. induction entries as [|e entries IH]; [done|].
  simpl. by rewrite IH, entry_is_new_table.
Qed.

(** X15: what one call of [process_feed] does, case by case. A failed fetch
    returns [False] and touches nothing. After a successful fetch the clock
    is read and the seen record loaded; when [dict(last_seen)] raises, the
    exception leaves [process_feed] with nothing written; otherwise the call
    returns [True] and the output path holds an rss document whose channel
    has the feed's title, link and description and whose items are, in feed
    order, those of the entries the decision table of the specification
    calls new, each with its title, link, identity, date and summary. *)
Theorem process_feed_outcomes (k : feed_key) (url : string) (w : Env.world) :
  match safe_fetch url w with
  | None => process_feed k url w = (Py.Ok false, w)
  | Some raw =>
      match of_json (load_last_seen (LAST_SEEN_FILES k) w) with
      | Py.Raise e =>
          process_feed k url w = (Py.Raise e, (Env.datetime_now_utc w).2)
      | Py.Ok d =>
          (process_feed k url w).1 = Py.Ok true
          ∧ ∃ chan,
              content_at (OUTFILES k) (process_feed k url w).2
              = Some (Env.XmlDocument
                        (Xml.Element "rss" [("version", "2.0")]%string None
                                     [chan]))
              ∧ Xml.tag chan = "channel"%string
              ∧ Xml.findtext "title" chan = Some ("daily_" +:+ key_name k)
              ∧ Xml.findtext "link" chan = Some url
              ∧ Xml.findtext "description" chan
                = Some ("Daily feed: daily_" +:+ key_name k)
              ∧ map item_texts (Xml.findall "item" chan)
                = map (expected_texts (Env.datetime_now_utc w).1)
                    (List.filter
                       (table_verdict (Env.datetime_now_utc w).1
                          (load_last_seen (LAST_SEEN_FILES k) w))
                       (feedparser_parse raw))
      end
  end.
Proof.
  destruct (safe_fetch url w) as [raw|] eqn:Hfetch.
  - destruct (of_json (load_last_seen (LAST_SEEN_FILES k) w))
      as [d|e] eqn:Hd.
    + split.
      * by rewrite process_feed_result, Hfetch, Hd.
      * rewrite (process_feed_output_file _ _ _ _ _ _ _ Hfetch Hd).
        match goal with
        | |- context [build_rss_xml ?t ?l ?items ?w'] =>
            destruct (build_rss_xml_document t l items w')
              as (chan & Hdoc & Htag & Htitle & Hlink & Hdesc & Hitems)
        end.
        exists chan. rewrite Hdoc, Hitems, !map_map.
        rewrite novel_entries_table.
        repeat split; try done.
        apply map_ext. intros e. apply present_item_texts.
    + apply (process_feed_raised _ _ _ _ _ _ _ Hfetch Hd).
  - by apply process_feed_failed.
Qed.


(** *** Run driver *)

(** X10: a feed whose fetch fails keeps its output file and its seen file
    as they were through the whole of [main], whatever happens to the other
    feed; and when every fetch fails [main] leaves the world as it found
    it. *)
Theorem failed_feeds_untouched (w : Env.world) :
  (∀ feed, feed ∈ FEEDS → safe_fetch feed.2 w = None →
     content_at (OUTFILES feed.1) (main w).2
     = content_at (OUTFILES feed.1) w
     ∧ content_at (LAST_SEEN_FILES feed.1) (main w).2
       = content_at (LAST_SEEN_FILES feed.1) w)
  ∧ ((∀ feed, feed ∈ FEEDS → safe_fetch feed.2 w = None) →
     (main w).2 = w).
Proof.
  rewrite main_unfold. cbv zeta. split.
  - intros feed [->| ->]%elem_of_FEEDS Hfail; cbn [fst snd] in *.
    + rewrite (process_feed_failed dateparser_parse feedparser_parse bd
                 _ _ Hfail).
      cbn [fst snd].
      assert (Hkeep : ∀ p, p ≠ OUTFILES master → p ≠ LAST_SEEN_FILES master →
                content_at p (process_feed master master_url w).2
                = content_at p w).
      { intros p Ho Hl. unfold content_at.
        by rewrite (process_feed_other_files dateparser_parse
                      feedparser_parse). }
      destruct ((process_feed master master_url w).1);
        cbn [snd]; split; apply Hkeep; simpl; discriminate.
    + rewrite <- (process_feed_safe_fetch dateparser_parse feedparser_parse
                    bd bd_url) in Hfail.
      assert (Hkeep : ∀ p, p ≠ OUTFILES bd → p ≠ LAST_SEEN_FILES bd →
                content_at p (process_feed bd bd_url w).2 = content_at p w).
      { intros p Ho Hl. unfold content_at.
        by rewrite (process_feed_other_files dateparser_parse
                      feedparser_parse). }
      destruct ((process_feed bd bd_url w).1) as [ok1|e1]; cbn [snd].
      * rewrite (process_feed_failed dateparser_parse feedparser_parse master
                   _ _ Hfail).
        cbn [fst snd]. split; apply Hkeep; simpl; discriminate.
      * split; apply Hkeep; simpl; discriminate.
  - intros Hall.
    assert (Hbd : safe_fetch bd_url w = None).
    { apply (Hall (bd, bd_url)), elem_of_FEEDS. auto. }
    assert (Hmaster : safe_fetch master_url w = None).
    { apply (Hall (master, master_url)), elem_of_FEEDS. auto. }
    rewrite (process_feed_failed dateparser_parse feedparser_parse bd
               _ _ Hbd).
    cbn [fst snd].
    by rewrite (process_feed_failed dateparser_parse feedparser_parse master
                  _ _ Hmaster).
Qed.



(** X18: an exception that leaves [process_feed] ends the run: [main] exits
    with status 1 in the world the failing call left, no file has been
    written, and the feeds after it are not processed. *)
Theorem run_stops_at_exception (w : Env.world) (e : Py.exception) :
  (process_feed bd bd_url w).1 = Py.Raise e →
  main w = (1, (process_feed bd bd_url w).2)
  ∧ Env.files (main w).2 = Env.files w
  ∧ Env.clock_reads (main w).2 = S (Env.clock_reads w).
Proof.
  intros Hraise. rewrite main_unfold. cbv zeta. rewrite Hraise.
  split; [done|]. cbn [snd]. split.
  - by eapply (process_feed_raised_files dateparser_parse feedparser_parse).
  - revert Hraise. rewrite process_feed_result.
    destruct (safe_fetch bd_url w) as [raw|] eqn:H; [|done].
    destruct (of_json (load_last_seen (LAST_SEEN_FILES bd) w))
      as [d|e'] eqn:Hd; [done|].
    intros _.
    by rewrite (process_feed_raised dateparser_parse feedparser_parse
                  _ _ _ _ _ H Hd).
Qed.

(** X12: the seen record a run builds holds the keys it started from and
    the identities of the feed's entries, and no other; the value under a
    key the feed does not list is left as it was. *)
Theorem seen_record_keys (now : datetime) (last_seen : json) (d0 : dict)
    (entries : list RawEntry) :
  (∀ k, is_Some (get (classify_entries now last_seen d0 entries).2 k)
        ↔ is_Some (get d0 k)
          ∨ ∃ e, e ∈ entries ∧ k = KStr (parse_entry_id e))
  ∧ (∀ k, (∀ e, e ∈ entries → k ≠ KStr (parse_entry_id e)) →
       get (classify_entries now last_seen d0 entries).2 k = get d0 k)
  ∧ others (classify_entries now last_seen d0 entries).2 = others d0.
Proof.
  rewrite classify_entries_spec. cbn [snd]. split; [|split].
  - intros k. split.
    + intros Hk.
      destruct k as [|b|n|s];
        try (left; rewrite <- (record_stamps_get_other dateparser_parse now
                                 entries d0); [done|by intros e He]).
      destruct (decide (s ∈ map parse_entry_id entries)) as [Hin|Hnin].
      * apply list_elem_of_fmap in Hin as (e & -> & He). right. eauto.
      * left. by rewrite <- (record_stamps_get_unlisted dateparser_parse now
                               entries d0).
    + intros [Hk|(e & He & ->)].
      * by apply record_stamps_get_is_Some.
      * assert (Hin : parse_entry_id e ∈ map parse_entry_id entries).
        { apply list_elem_of_fmap. eauto. }
        destruct (record_stamps_get_listed dateparser_parse now _ d0 _ Hin)
          as (e' & _ & _ & ->).
        eauto.
  - intros k Hk. by apply record_stamps_get_other.
  - apply record_stamps_others.
Qed.

End FurtherProperties.

(** *** On concrete runs *)

(** A first run on a feed that answers with no entries. *)
Lemma process_feed_empty_feed_witness :
  safe_fetch "https://evilgodfahim.github.io/bd/articles.xml"
             (fresh (only_bd "nothing")) = Some "nothing"%string
  ∧ feed_of "nothing" = []
  ∧ of_json (load_last_seen (LAST_SEEN_FILES bd) (fresh (only_bd "nothing")))
    = Py.Ok []
  ∧ document_items
      <$> content_at (OUTFILES bd)
            (process_feed iso_parse feed_of bd
               "https://evilgodfahim.github.io/bd/articles.xml"
               (fresh (only_bd "nothing"))).2
    = Some [].
Proof.
  assert (Hfetch : safe_fetch "https://evilgodfahim.github.io/bd/articles.xml"
                     (fresh (only_bd "nothing")) = Some "nothing"%string)
    by reflexivity.
  assert (Hempty : feed_of "nothing" = []) by reflexivity.
  assert (Hd : of_json (load_last_seen (LAST_SEEN_FILES bd)
                          (fresh (only_bd "nothing"))) = Py.Ok [])
    by reflexivity.
  split; [exact Hfetch|]. split; [exact Hempty|]. split; [exact Hd|].
  exact (proj1 (proj2 (process_feed_empty_feed iso_parse feed_of bd _ _ _ _
                         Hfetch Hempty Hd))).
Defined.


(** A run that finds [null] in the seen-state file of [bd]. *)
Lemma run_stops_at_exception_witness :
  (process_feed iso_parse feed_of bd
     "https://evilgodfahim.github.io/bd/articles.xml"
     (with_state JNull (both "three"))).1 = Py.Raise Py.TypeError
  ∧ Env.files (main iso_parse feed_of (with_state JNull (both "three"))).2
    = Env.files (with_state JNull (both "three")).
Proof.
  assert (Hraise : (process_feed iso_parse feed_of bd
                      "https://evilgodfahim.github.io/bd/articles.xml"
                      (with_state JNull (both "three"))).1
                   = Py.Raise Py.TypeError) by reflexivity.
  split; [exact Hraise|].
  exact (proj1 (proj2 (run_stops_at_exception iso_parse feed_of
                         (with_state JNull (both "three")) Py.TypeError
                         Hraise))).
Defined.
